(** * MicroHH time integration controller ([src/timeloop.cxx])

    A shallow embedding of the [Timeloop] class: the integer ("tick") and
    floating clocks, the substep counter, the low-storage Runge-Kutta stage
    kernels and the small checkpoint record written by [save] and read back
    by [load].

    Conventions of the embedding.
    - [unsigned long] is a 64-bit word: a [Z] in [0, 2^64) with the
      wrap-around of every arithmetic operation written out ([ulong]).
    - [int] is a 32-bit two's complement word: a [Z] in [-2^31, 2^31); signed
      overflow, division by zero and out-of-bounds array accesses are
      undefined behaviour in C++ and end a run of the model in [Undefined].
    - [double] is IEEE-754 binary64, embedded as Rocq's primitive [float], so
      that the floating clock is computed bit for bit as the program does;
      an expression is evaluated operation by operation in the order the
      source gives, each result rounded to [double] (no contraction into
      fused multiply-adds).
    - [throw 1] ends a run in [Throw s], where [s] is the state at the throw.
    - Console output ([print_message], [print_warning], [print_error]) is
      not part of the state and is left out, as are the wall-clock timer
      [check] and the parsing of the input file in the constructor. *)

From Stdlib Require Import ZArith QArith Qabs Lia Strings.Byte DecimalString.
From Stdlib Require Import PrimFloat SpecFloat FloatOps FloatAxioms.
From Stdlib Require DecimalN DecimalPos.
From stdpp Require Import base option list gmap strings.

Local Open Scope Z_scope.

(** ** Machine integers and doubles *)

Module Machine.

Definition ULONG_MOD : Z := 2 ^ 64.
Definition INT_MAX : Z := 2 ^ 31 - 1.
Definition INT_MIN : Z := - 2 ^ 31.

(** Result of an [unsigned long] operation whose exact value is [z]. *)
Definition ulong (z : Z) : Z := z mod ULONG_MOD.

Definition is_ulong (z : Z) : Prop := 0 <= z < ULONG_MOD.

Definition in_int (z : Z) : bool := (INT_MIN <=? z) && (z <=? INT_MAX).

Definition is_int (z : Z) : Prop := INT_MIN <= z <= INT_MAX.

(** Conversion [(int) z] of an integer outside the range of [int]: the
    value is reduced modulo 2^32 into [-2^31, 2^31). *)
Definition to_int (z : Z) : Z := (z + 2 ^ 31) mod 2 ^ 32 - 2 ^ 31.

(** Conversion [(double) z] of an integer: rounding to nearest, ties to
    even, as the hardware conversion does. *)
Definition to_double (z : Z) : float :=
  SF2Prim (binary_normalize prec emax z 0 false).

End Machine.
Import Machine.

(** ** Outcomes of a method call *)

Inductive outcome (S A : Type) : Type :=
| Ret (a : A) (s : S)     (* normal return, with the state left behind *)
| Throw (s : S)           (* [throw 1], with the state at the throw *)
| Undefined.              (* undefined behaviour *)

Arguments Ret {S A} a s.
Arguments Throw {S A} s.
Arguments Undefined {S A}.

Definition bind {S A B} (m : outcome S A) (k : A -> S -> outcome S B)
  : outcome S B :=
  match m with
  | Ret a s => k a s
  | Throw s => Throw s
  | Undefined => Undefined
  end.

(** ** The collaborators *)

(** Modelled from the spec: [master.h] is missing. The controller reads the
    rank of the process ([mpiid], the coordinator is rank 0) and queries
    whether the wall-clock limit has been reached. *)
Record Master : Type := {
  mpiid : Z;
  at_wall_clock_limit : bool
}.

(** Modelled from the spec: [grid.h] is missing. The Grid service provides
    cell counts and index ranges, all of type [int]. *)
Record Grid : Type := {
  icells : Z;
  ijcells : Z;
  istart : Z;
  iend : Z;
  jstart : Z;
  jend : Z;
  kstart : Z;
  kend : Z
}.

(** ** The state of the controller *)

Record Timeloop : Type := {
  substep : Z;            (* int *)
  ifactor : float;        (* double, 1e9 *)
  adaptivestep : bool;
  rkorder : Z;            (* int *)
  outputiter : Z;         (* int *)
  loop : bool;
  time : float;           (* double *)
  dt : float;             (* double *)
  iteration : Z;          (* int *)
  iotime : Z;             (* int *)
  itime : Z;              (* unsigned long, as are all below *)
  iendtime : Z;
  istarttime : Z;
  idt : Z;
  idtmax : Z;
  idtlim : Z;
  isavetime : Z;
  ipostproctime : Z;
  iiotimeprec : Z
}.

Definition set_substep (tl : Timeloop) (v : Z) : Timeloop :=
  {| substep := v; ifactor := ifactor tl; adaptivestep := adaptivestep tl;
     rkorder := rkorder tl; outputiter := outputiter tl; loop := loop tl;
     time := time tl; dt := dt tl; iteration := iteration tl;
     iotime := iotime tl; itime := itime tl; iendtime := iendtime tl;
     istarttime := istarttime tl; idt := idt tl; idtmax := idtmax tl;
     idtlim := idtlim tl; isavetime := isavetime tl;
     ipostproctime := ipostproctime tl; iiotimeprec := iiotimeprec tl |}.

Definition set_loop (tl : Timeloop) (v : bool) : Timeloop :=
  {| substep := substep tl; ifactor := ifactor tl;
     adaptivestep := adaptivestep tl;
     rkorder := rkorder tl; outputiter := outputiter tl; loop := v;
     time := time tl; dt := dt tl; iteration := iteration tl;
     iotime := iotime tl; itime := itime tl; iendtime := iendtime tl;
     istarttime := istarttime tl; idt := idt tl; idtmax := idtmax tl;
     idtlim := idtlim tl; isavetime := isavetime tl;
     ipostproctime := ipostproctime tl; iiotimeprec := iiotimeprec tl |}.

Definition set_time (tl : Timeloop) (v : float) : Timeloop :=
  {| substep := substep tl; ifactor := ifactor tl;
     adaptivestep := adaptivestep tl;
     rkorder := rkorder tl; outputiter := outputiter tl; loop := loop tl;
     time := v; dt := dt tl; iteration := iteration tl;
     iotime := iotime tl; itime := itime tl; iendtime := iendtime tl;
     istarttime := istarttime tl; idt := idt tl; idtmax := idtmax tl;
     idtlim := idtlim tl; isavetime := isavetime tl;
     ipostproctime := ipostproctime tl; iiotimeprec := iiotimeprec tl |}.

Definition set_dt (tl : Timeloop) (v : float) : Timeloop :=
  {| substep := substep tl; ifactor := ifactor tl;
     adaptivestep := adaptivestep tl;
     rkorder := rkorder tl; outputiter := outputiter tl; loop := loop tl;
     time := time tl; dt := v; iteration := iteration tl;
     iotime := iotime tl; itime := itime tl; iendtime := iendtime tl;
     istarttime := istarttime tl; idt := idt tl; idtmax := idtmax tl;
     idtlim := idtlim tl; isavetime := isavetime tl;
     ipostproctime := ipostproctime tl; iiotimeprec := iiotimeprec tl |}.

Definition set_iteration (tl : Timeloop) (v : Z) : Timeloop :=
  {| substep := substep tl; ifactor := ifactor tl;
     adaptivestep := adaptivestep tl;
     rkorder := rkorder tl; outputiter := outputiter tl; loop := loop tl;
     time := time tl; dt := dt tl; iteration := v;
     iotime := iotime tl; itime := itime tl; iendtime := iendtime tl;
     istarttime := istarttime tl; idt := idt tl; idtmax := idtmax tl;
     idtlim := idtlim tl; isavetime := isavetime tl;
     ipostproctime := ipostproctime tl; iiotimeprec := iiotimeprec tl |}.

Definition set_iotime (tl : Timeloop) (v : Z) : Timeloop :=
  {| substep := substep tl; ifactor := ifactor tl;
     adaptivestep := adaptivestep tl;
     rkorder := rkorder tl; outputiter := outputiter tl; loop := loop tl;
     time := time tl; dt := dt tl; iteration := iteration tl;
     iotime := v; itime := itime tl; iendtime := iendtime tl;
     istarttime := istarttime tl; idt := idt tl; idtmax := idtmax tl;
     idtlim := idtlim tl; isavetime := isavetime tl;
     ipostproctime := ipostproctime tl; iiotimeprec := iiotimeprec tl |}.

Definition set_itime (tl : Timeloop) (v : Z) : Timeloop :=
  {| substep := substep tl; ifactor := ifactor tl;
     adaptivestep := adaptivestep tl;
     rkorder := rkorder tl; outputiter := outputiter tl; loop := loop tl;
     time := time tl; dt := dt tl; iteration := iteration tl;
     iotime := iotime tl; itime := v; iendtime := iendtime tl;
     istarttime := istarttime tl; idt := idt tl; idtmax := idtmax tl;
     idtlim := idtlim tl; isavetime := isavetime tl;
     ipostproctime := ipostproctime tl; iiotimeprec := iiotimeprec tl |}.

Definition set_idt (tl : Timeloop) (v : Z) : Timeloop :=
  {| substep := substep tl; ifactor := ifactor tl;
     adaptivestep := adaptivestep tl;
     rkorder := rkorder tl; outputiter := outputiter tl; loop := loop tl;
     time := time tl; dt := dt tl; iteration := iteration tl;
     iotime := iotime tl; itime := itime tl; iendtime := iendtime tl;
     istarttime := istarttime tl; idt := v; idtmax := idtmax tl;
     idtlim := idtlim tl; isavetime := isavetime tl;
     ipostproctime := ipostproctime tl; iiotimeprec := iiotimeprec tl |}.

Definition set_idtlim (tl : Timeloop) (v : Z) : Timeloop :=
  {| substep := substep tl; ifactor := ifactor tl;
     adaptivestep := adaptivestep tl;
     rkorder := rkorder tl; outputiter := outputiter tl; loop := loop tl;
     time := time tl; dt := dt tl; iteration := iteration tl;
     iotime := iotime tl; itime := itime tl; iendtime := iendtime tl;
     istarttime := istarttime tl; idt := idt tl; idtmax := idtmax tl;
     idtlim := v; isavetime := isavetime tl;
     ipostproctime := ipostproctime tl; iiotimeprec := iiotimeprec tl |}.

(** ** Queries and clock updates *)

(** [Timeloop::in_substep] *)
Definition in_substep (tl : Timeloop) : bool := 0 <? substep tl.

(** [Timeloop::is_finished] *)
Definition is_finished (tl : Timeloop) : bool := negb (loop tl).

(** [Timeloop::is_stats_step] *)
Definition is_stats_step (tl : Timeloop) : bool :=
  if negb (in_substep tl)
     && negb ((0 <? iteration tl) && (itime tl =? istarttime tl))
  then true else false.

(** [Timeloop::set_time_step_limit()] *)
Definition set_time_step_limit (master : Master) (tl : Timeloop)
  : outcome Timeloop unit :=
  let tl := set_idtlim tl (idtmax tl) in
  bind (if at_wall_clock_limit master then
          if iiotimeprec tl =? 0 then Undefined
          else Ret tt (set_idtlim tl
                 (Z.min (idtlim tl)
                    (ulong (iiotimeprec tl - itime tl mod iiotimeprec tl))))
        else Ret tt tl)
    (fun _ tl =>
       if isavetime tl =? 0 then Undefined
       else Ret tt (set_idtlim tl
              (Z.min (idtlim tl)
                 (ulong (isavetime tl - itime tl mod isavetime tl))))).

(** [Timeloop::set_time_step_limit(unsigned long)] *)
Definition set_time_step_limit_in (idtlimin : Z) (tl : Timeloop) : Timeloop :=
  set_idtlim tl (Z.min (idtlim tl) idtlimin).

(** [Timeloop::step_time] *)
Definition step_time (tl : Timeloop) : outcome Timeloop unit :=
  if in_substep tl then Ret tt tl
  else
    let tl := set_time tl (time tl + dt tl)%float in
    let tl := set_itime tl (ulong (itime tl + idt tl)) in
    if iiotimeprec tl =? 0 then Undefined
    else
      let tl := set_iotime tl (to_int (itime tl / iiotimeprec tl)) in
      if in_int (iteration tl + 1) then
        let tl := set_iteration tl (iteration tl + 1) in
        if iendtime tl <=? itime tl then Ret tt (set_loop tl false)
        else Ret tt tl
      else Undefined.

(** [Timeloop::do_check]; [%] on [int] truncates towards zero. *)
Definition do_check (tl : Timeloop) : outcome Timeloop bool :=
  if (outputiter tl =? 0)
     || ((iteration tl =? INT_MIN) && (outputiter tl =? -1))
  then Undefined
  else if (Z.rem (iteration tl) (outputiter tl) =? 0) && negb (in_substep tl)
       then Ret true tl
       else Ret false tl.

(** [Timeloop::do_save] *)
Definition do_save (master : Master) (tl : Timeloop) : outcome Timeloop bool :=
  if iiotimeprec tl =? 0 then Undefined
  else if (itime tl mod iiotimeprec tl =? 0) && negb (in_substep tl)
          && at_wall_clock_limit master
  then Ret true (set_loop tl false)
  else if isavetime tl =? 0 then Undefined
  else if (itime tl mod isavetime tl =? 0) && negb (iteration tl =? 0)
          && negb (in_substep tl)
  then Ret true tl
  else Ret false tl.

(** [Timeloop::set_time_step] *)
Definition set_time_step (tl : Timeloop) : outcome Timeloop unit :=
  if in_substep tl then Ret tt tl
  else if adaptivestep tl then
    if idt tl =? 0 then Throw tl
    else
      let tl := set_idt tl (idtlim tl) in
      Ret tt (set_dt tl (to_double (idt tl) / ifactor tl)%float)
  else Ret tt tl.

(** [Timeloop::step_post_proc_time] *)
Definition step_post_proc_time (tl : Timeloop) : outcome Timeloop unit :=
  let tl := set_itime tl (ulong (itime tl + ipostproctime tl)) in
  if iiotimeprec tl =? 0 then Undefined
  else
    let tl := set_iotime tl (to_int (itime tl / iiotimeprec tl)) in
    if iendtime tl <? itime tl then Ret tt (set_loop tl false)
    else Ret tt tl.

(** ** Runge-Kutta coefficient tables *)

(** The entries of the tables are constant expressions over decimal
    literals ([0.], [1./3.], [-5./9.]). They are kept as written, and read
    either as the [double] the compiler folds them to or as the exact
    rational they denote. *)
Inductive cexpr : Type :=
| Lit (z : Z)
| Neg (e : cexpr)
| Quot (e1 e2 : cexpr).

Fixpoint eval_double (e : cexpr) : float :=
  match e with
  | Lit z => to_double z
  | Neg e => (- eval_double e)%float
  | Quot e1 e2 => (eval_double e1 / eval_double e2)%float
  end.

Fixpoint eval_Q (e : cexpr) : Q :=
  match e with
  | Lit z => inject_Z z
  | Neg e => Qopp (eval_Q e)
  | Quot e1 e2 => Qdiv (eval_Q e1) (eval_Q e2)
  end.

Module RK3.
Definition cA : list cexpr :=
  [Lit 0; Quot (Neg (Lit 5)) (Lit 9); Quot (Neg (Lit 153)) (Lit 128)].
Definition cB : list cexpr :=
  [Quot (Lit 1) (Lit 3); Quot (Lit 15) (Lit 16); Quot (Lit 8) (Lit 15)].
(** The modulus of the substep counter in [exec] and [rk3]. *)
Definition nsubstep : Z := 3.
End RK3.

Module RK4.
Definition cA : list cexpr :=
  [Lit 0;
   Quot (Neg (Lit 567301805773)) (Lit 1357537059087);
   Quot (Neg (Lit 2404267990393)) (Lit 2016746695238);
   Quot (Neg (Lit 3550918686646)) (Lit 2091501179385);
   Quot (Neg (Lit 1275806237668)) (Lit 842570457699)].
Definition cB : list cexpr :=
  [Quot (Lit 1432997174477) (Lit 9575080441755);
   Quot (Lit 5161836677717) (Lit 13612068292357);
   Quot (Lit 1720146321549) (Lit 2090206949498);
   Quot (Lit 3134564353537) (Lit 4481467310338);
   Quot (Lit 2277821191437) (Lit 14882151754819)].
(** The modulus of the substep counter in [exec] and [rk4]. *)
Definition nsubstep : Z := 5.
End RK4.

(** [tbl[i]] for an [int] index: outside the array the access is
    undefined. *)
Definition index {A : Type} (tbl : list A) (i : Z) : option A :=
  if i <? 0 then None else tbl !! Z.to_nat i.

(** Exact sum of a table. *)
Definition sum_Q (tbl : list cexpr) : Q :=
  foldr (fun e acc => Qplus (eval_Q e) acc) (inject_Z 0) tbl.

(** The weights with which one full step accumulates a tendency that is
    the same at every stage: stage [s] adds [cB[s] * w s] times it, where
    [w 0 = 1] (the rescale by [cA[0] = 0] erased what was there) and
    [w s = 1 + cA[s] * w (s-1)] (stage [s-1] left [cA[s]] times its
    tendency behind). [accumulated] returns the sum and the last [w]. *)
Fixpoint accumulated (w : Q) (cAs cBs : list cexpr) : Q :=
  match cAs, cBs with
  | a :: cAs', b :: cBs' =>
      let w' := Qplus (inject_Z 1) (Qmult (eval_Q a) w) in
      Qplus (Qmult (eval_Q b) w') (accumulated w' cAs' cBs')
  | _, _ => inject_Z 0
  end.

(** [Timeloop::rk3subdt]; its table is a second copy of [RK3.cB]. *)
Definition rk3subdt (tl : Timeloop) (dt : float) : option float :=
  c ← index RK3.cB (substep tl); Some (eval_double c * dt)%float.

(** [Timeloop::rk4subdt]; its table is a second copy of [RK4.cB]. *)
Definition rk4subdt (tl : Timeloop) (dt : float) : option float :=
  c ← index RK4.cB (substep tl); Some (eval_double c * dt)%float.

(** [Timeloop::get_sub_time_step] *)
Definition get_sub_time_step (tl : Timeloop) : option float :=
  if rkorder tl =? 3 then rk3subdt tl (dt tl)
  else if rkorder tl =? 4 then rk4subdt tl (dt tl)
  else Some 0%float.

(** ** The stage kernels *)

(** [for (int i = lo; i < hi; i++) body], run on a state [s]. *)
Fixpoint for_loop {S : Type} (n : nat) (i : Z) (body : Z -> S -> option S)
  (s : S) : option S :=
  match n with
  | O => Some s
  | Datatypes.S n' =>
      match body i s with
      | Some s' => for_loop n' (i + 1) body s'
      | None => None
      end
  end.

Definition for_range {S : Type} (lo hi : Z) (body : Z -> S -> option S)
  (s : S) : option S :=
  for_loop (Z.to_nat (hi - lo)) lo body s.

Section Kernels.
Variable grid : Grid.

(** [i + j*jj + k*kk] in [int] arithmetic. *)
Definition ijk_of (i j k : Z) : option Z :=
  let jj := icells grid in
  let kk := ijcells grid in
  if in_int (j * jj) && in_int (i + j * jj)
     && in_int (k * kk) && in_int (i + j * jj + k * kk)
  then Some (i + j * jj + k * kk)
  else None.

(** The triple loop over the index ranges of the grid, [k] outermost. *)
Definition grid_loop {S : Type} (body : Z -> S -> option S) (s : S)
  : option S :=
  for_range (kstart grid) (kend grid) (fun k =>
    for_range (jstart grid) (jend grid) (fun j =>
      for_range (istart grid) (iend grid) (fun i s =>
        ijk ← ijk_of i j k; body ijk s))) s.

(** [a[ijk] += cB[substep]*dt*at[ijk]] *)
Definition update_a (cB : list cexpr) (substep : Z) (dt : float)
  (at_ : list float) (ijk : Z) (a : list float) : option (list float) :=
  c ← index cB substep;
  t ← index at_ ijk;
  x ← index a ijk;
  Some (<[Z.to_nat ijk := (x + eval_double c * dt * t)%float]> a).

(** [at[ijk] *= cA[substepn]] *)
Definition scale_at (cA : list cexpr) (substepn : Z) (ijk : Z)
  (at_ : list float) : option (list float) :=
  c ← index cA substepn;
  t ← index at_ ijk;
  Some (<[Z.to_nat ijk := (eval_double c * t)%float]> at_).

(** The body shared by [rk3] and [rk4], which differ in their tables and
    in the modulus of [substepn]. ([rk3] writes [a += x] and [at *= c],
    [rk4] writes [a = a + x] and [at = c*at]: the same operations.) *)
Definition rk (cA cB : list cexpr) (modulus : Z) (substep : Z)
  (a at_ : list float) (dt : float) : option (list float * list float) :=
  a' ← grid_loop (update_a cB substep dt at_) a;
  if in_int (substep + 1) then
    let substepn := Z.rem (substep + 1) modulus in
    at' ← grid_loop (scale_at cA substepn) at_;
    Some (a', at')
  else None.

(** [Timeloop::rk3] *)
Definition rk3 (tl : Timeloop) (a at_ : list float) (dt : float)
  : option (list float * list float) :=
  rk RK3.cA RK3.cB 3 (substep tl) a at_ dt.

(** [Timeloop::rk4] *)
Definition rk4 (tl : Timeloop) (a at_ : list float) (dt : float)
  : option (list float * list float) :=
  rk RK4.cA RK4.cB 5 (substep tl) a at_ dt.

End Kernels.

(** ** The substep integrator *)

(** Modelled from the spec: [fields.h] is missing. The Fields service maps
    field names to value arrays ([ap]) and tendency arrays ([at], written
    [at_] here). *)
Record Fields : Type := {
  ap : gmap string (list float);
  at_ : gmap string (list float)
}.

Section Exec.
Variable grid : Grid.

(** One turn of the loop over [fields->at] in [exec]: the kernel works in
    place on [fields->ap[name]->data] and [fields->at[name]->data]. A
    name of [at] that [ap] lacks makes [ap[name]] a null pointer. *)
Definition exec_field
  (kernel : list float -> list float -> option (list float * list float))
  (name : string) (f : Fields) : option Fields :=
  t ← at_ f !! name;
  a ← ap f !! name;
  r ← kernel a t;
  Some {| ap := <[name := r.1]> (ap f); at_ := <[name := r.2]> (at_ f) |}.

Fixpoint exec_fields
  (kernel : list float -> list float -> option (list float * list float))
  (names : list string) (f : Fields) : option Fields :=
  match names with
  | [] => Some f
  | name :: names' =>
      match exec_field kernel name f with
      | Some f' => exec_fields kernel names' f'
      | None => None
      end
  end.

(** One branch of [exec]: the kernel on every field of [fields->at], then
    [substep = (substep+1) % modulus]. *)
Definition exec_order
  (kernel : Timeloop -> list float -> list float -> float
            -> option (list float * list float))
  (modulus : Z) (f : Fields) (tl : Timeloop)
  : outcome (Fields * Timeloop) unit :=
  match exec_fields (fun a t => kernel tl a t (dt tl))
          (map_to_list (at_ f)).*1 f with
  | None => Undefined
  | Some f' =>
      if in_int (substep tl + 1)
      then Ret tt (f', set_substep tl (Z.rem (substep tl + 1) modulus))
      else Undefined
  end.

(** [Timeloop::exec] *)
Definition exec (s : Fields * Timeloop) : outcome (Fields * Timeloop) unit :=
  bind (if rkorder s.2 =? 3 then exec_order (rk3 grid) 3 s.1 s.2
        else Ret tt s)
    (fun _ s =>
       if rkorder s.2 =? 4 then exec_order (rk4 grid) 5 s.1 s.2
       else Ret tt s).

(** [n] calls of [exec] in a row. *)
Fixpoint exec_n (n : nat) (s : Fields * Timeloop)
  : outcome (Fields * Timeloop) unit :=
  match n with
  | O => Ret tt s
  | Datatypes.S n' => bind (exec s) (fun _ s' => exec_n n' s')
  end.

End Exec.

(** ** Interpolation in time *)

Record Interpolation : Type := {
  index0 : Z;
  index1 : Z;
  fac0 : float;
  fac1 : float
}.

(** The loop [for (auto& t : timevec) if (time < t) break; else ++index1;] *)
Fixpoint scan_times (time : float) (timevec : list float) (index1 : Z)
  : option Z :=
  match timevec with
  | [] => Some index1
  | t :: rest =>
      if (time <? t)%float then Some index1
      else if in_int (index1 + 1) then scan_times time rest (index1 + 1)
      else None
  end.

(** [Timeloop::get_interpolation_factors]; the four reference arguments are
    returned as a record. *)
Definition get_interpolation_factors (tl : Timeloop) (timevec : list float)
  : option Interpolation :=
  index1 ← scan_times (time tl) timevec 0;
  if index1 =? 0 then
    Some {| index0 := 0; index1 := index1; fac0 := 0; fac1 := 1 |}
  else if index1 =? Z.of_nat (length timevec) then
    Some {| index0 := index1 - 1; index1 := index1 - 1;
            fac0 := 1; fac1 := 0 |}
  else
    let index0 := index1 - 1 in
    t1 ← index timevec index1;
    t0 ← index timevec index0;
    Some {| index0 := index0; index1 := index1;
            fac0 := ((t1 - time tl) / (t1 - t0))%float;
            fac1 := ((time tl - t0) / (t1 - t0))%float |}.

(** ** The checkpoint record *)

Module Codec.

Definition byte_of_Z (z : Z) : byte :=
  match Byte.of_N (Z.to_N (z mod 256)) with
  | Some b => b
  | None => x00
  end.

Definition Z_of_byte (b : byte) : Z := Z.of_N (Byte.to_N b).

(** The [n] bytes of an object holding [z], least significant first
    (the layout of the x86-64 and other little-endian targets). *)
Fixpoint encode (n : nat) (z : Z) : list byte :=
  match n with
  | O => []
  | Datatypes.S n' => byte_of_Z z :: encode n' (z / 256)
  end.

Fixpoint decode (bs : list byte) : Z :=
  match bs with
  | [] => 0
  | b :: bs' => Z_of_byte b + 256 * decode bs'
  end.

(** [sizeof(unsigned long)] and [sizeof(int)] *)
Definition sizeof_ulong : nat := 8.
Definition sizeof_int : nat := 4.

(** The value of an [int] object from its 4 bytes (two's complement). *)
Definition decode_int (bs : list byte) : Z := to_int (decode bs).

(** [fread(&x, size, 1, pFile)] on the unread rest of a file: the bytes
    of [x] and what is left, when the file still holds [size] bytes. *)
Definition fread (size : nat) (rest : list byte)
  : option (list byte * list byte) :=
  if decide (size ≤ length rest)%nat
  then Some (take size rest, drop size rest)
  else None.

(** The decimal digits of a natural number. *)
Definition digits (n : N) : string :=
  DecimalString.NilZero.string_of_uint (N.to_uint n).

Fixpoint zeros (n : nat) : string :=
  match n with
  | O => EmptyString
  | Datatypes.S n' => "0" +:+ zeros n'
  end.

(** [%07d]: at least 7 characters, the sign first, then zeros, then the
    digits. *)
Definition format_07d (z : Z) : string :=
  let d := digits (Z.abs_N z) in
  if z <? 0
  then "-" +:+ zeros (6 - String.length d) +:+ d
  else zeros (7 - String.length d) +:+ d.

(** [std::sprintf(filename, "time.%07d", starttime)] *)
Definition filename (starttime : Z) : string :=
  "time." +:+ format_07d starttime.

End Codec.

(** The files of the working directory, by name. *)
Abbreviation Files := (gmap string (list byte)).

(** What the coordinator (rank 0) sends in the broadcasts of a [save] or a
    [load]. *)
Record Sent : Type := {
  sent_nerror : Z;
  sent_itime : Z;
  sent_idt : Z;
  sent_iteration : Z
}.

Section Checkpoint.
Variable master : Master.

(** Modelled from the spec: [Master::broadcast] is missing. After
    [master->broadcast(&x, 1)] every process holds the coordinator's [x];
    the coordinator keeps its own. *)
Definition broadcast {A : Type} (sent : A) (x : A) : A :=
  if mpiid master =? 0 then x else sent.

(** [Timeloop::save]. [fopen(filename, "wbx")] creates the file and fails
    when it exists. *)
Definition save (sent : Sent) (starttime : Z) (s : Timeloop * Files)
  : outcome (Timeloop * Files) unit :=
  let tl := s.1 in
  let r :=
    if mpiid master =? 0 then
      match s.2 !! Codec.filename starttime with
      | Some _ => (1, s.2)
      | None =>
          (0, <[Codec.filename starttime :=
                  Codec.encode Codec.sizeof_ulong (itime tl)
                  ++ Codec.encode Codec.sizeof_ulong (idt tl)
                  ++ Codec.encode Codec.sizeof_int (iteration tl)]> s.2)
      end
    else (0, s.2) in
  let nerror := broadcast (sent_nerror sent) r.1 in
  if nerror =? 0 then Ret tt (tl, r.2) else Throw (tl, r.2).

(** The three [fread]s of [load]. A file that ends before the record
    does leaves the objects read indeterminate. *)
Definition read_record (tl : Timeloop) (content : list byte)
  : option Timeloop :=
  r1 ← Codec.fread Codec.sizeof_ulong content;
  r2 ← Codec.fread Codec.sizeof_ulong r1.2;
  r3 ← Codec.fread Codec.sizeof_int r2.2;
  Some (set_iteration
          (set_idt (set_itime tl (Codec.decode r1.1)) (Codec.decode r2.1))
          (Codec.decode_int r3.1)).

(** [Timeloop::load]. [fopen(filename, "rb")] fails when the file does
    not exist. *)
Definition load (sent : Sent) (starttime : Z) (s : Timeloop * Files)
  : outcome (Timeloop * Files) unit :=
  let tl := s.1 in
  bind
    (if mpiid master =? 0 then
       match s.2 !! Codec.filename starttime with
       | None => Ret 1 (tl, s.2)
       | Some content =>
           match read_record tl content with
           | Some tl' => Ret 0 (tl', s.2)
           | None => Undefined
           end
       end
     else Ret 0 s)
    (fun nerror s =>
       let tl := s.1 in
       let nerror := broadcast (sent_nerror sent) nerror in
       if nerror =? 0 then
         let tl := set_itime tl (broadcast (sent_itime sent) (itime tl)) in
         let tl := set_idt tl (broadcast (sent_idt sent) (idt tl)) in
         let tl :=
           set_iteration tl
             (broadcast (sent_iteration sent) (iteration tl)) in
         let tl := set_time tl (to_double (itime tl) / ifactor tl)%float in
         let tl := set_dt tl (to_double (idt tl) / ifactor tl)%float in
         Ret tt (tl, s.2)
       else Throw s).

End Checkpoint.

(** ** Loops as folds, and the cells of the index ranges *)

(** A loop body run over a list of loop indices. *)
Fixpoint foldM {A S : Type} (body : A -> S -> option S) (l : list A) (s : S)
  : option S :=
  match l with
  | [] => Some s
  | x :: l' =>
      match body x s with
      | Some s' => foldM body l' s'
      | None => None
      end
  end.

(** The index triples of [grid_loop], in the order it visits them. *)
Definition triples (g : Grid) : list (Z * Z * Z) :=
  k ← seqZ (kstart g) (kend g - kstart g);
  j ← seqZ (jstart g) (jend g - jstart g);
  i ← seqZ (istart g) (iend g - istart g);
  [(i, j, k)].

Definition in_range (g : Grid) (i j k : Z) : Prop :=
  istart g <= i < iend g
  /\ jstart g <= j < jend g
  /\ kstart g <= k < kend g.

(** The array cell of the grid point [(i, j, k)]. *)
Definition cell (g : Grid) (i j k : Z) : nat :=
  Z.to_nat (i + j * icells g + k * ijcells g).

(** The index ranges of [g] fit arrays of [ncells] cells laid out in rows
    of [icells] and slabs of [ijcells] cells, and [ncells] is an [int]. *)
Definition grid_ok (g : Grid) (ncells : Z) : Prop :=
  0 <= istart g /\ iend g <= icells g
  /\ 0 <= jstart g /\ jend g * icells g <= ijcells g
  /\ 0 <= kstart g /\ kend g * ijcells g <= ncells
  /\ ncells <= INT_MAX.

(** Every tendency array has [ncells] cells, and so has the value array of
    the same name. *)
Definition fields_ok (ncells : nat) (f : Fields) : Prop :=
  forall name t, at_ f !! name = Some t ->
    length t = ncells
    /\ exists a, ap f !! name = Some a /\ length a = ncells.

(** What a stage with coefficients [cb] and [ca] makes of the arrays [a]
    and [at_]: at the grid points of the index ranges, [a += cb*dt*at] and
    then [at *= ca]; elsewhere (the ghost cells) nothing. *)
Definition stage_updates (g : Grid) (cb ca dt : float)
  (a at_ a' at' : list float) : Prop :=
  length a' = length a /\ length at' = length at_
  /\ (forall i j k, in_range g i j k ->
      exists x t,
        a !! cell g i j k = Some x /\ at_ !! cell g i j k = Some t
        /\ a' !! cell g i j k = Some (x + cb * dt * t)%float
        /\ at' !! cell g i j k = Some (ca * t)%float)
  /\ (forall n, (forall i j k, in_range g i j k -> cell g i j k <> n) ->
      a' !! n = a !! n /\ at' !! n = at_ !! n).

(** ** The constructor *)

(** Conversion [(unsigned long) x] of a [double]: the value is truncated
    towards zero; the conversion is undefined when the truncated value is
    not an [unsigned long], and for infinities and NaN. *)
Definition to_ulong (x : float) : option Z :=
  match Prim2SF x with
  | S754_zero _ => Some 0
  | S754_finite s m e =>
      let v := if 0 <=? e then Z.pos m * 2 ^ e else Z.pos m / 2 ^ (- e) in
      let z := if s then - v else v in
      if (0 <=? z) && (z <? ULONG_MOD) then Some z else None
  | _ => None
  end.

(** Modelled from the spec: [input.h] is missing. What the calls of
    [Input::get_item] leave in the members they are given (the value read
    or the default), and [n], the sum of what they return: the number of
    items that failed. *)
Record Input : Type := {
  in_n : Z;
  in_starttime : float;
  in_endtime : float;
  in_savetime : float;
  in_adaptivestep : bool;
  in_dtmax : float;
  in_dt : float;
  in_rkorder : Z;
  in_outputiter : Z;
  in_iotimeprec : Z;
  in_postproctime : float
}.

Section Constructor.
(** [std::pow(10., iotimeprec)], from [<cmath>]. *)
Variable pow10 : Z -> float.

(** [Timeloop::Timeloop], from the state the calls of [get_item] leave.
    [mode] is [master->mode]; [unset] is the indeterminate value of
    [ipostproctime], which is initialised in mode [post] only. A throw
    leaves no object. *)
Definition construct (mode : string) (input : Input) (unset : Z)
  : outcome unit Timeloop :=
  let ifactor := 1000000000%float in
  let starttime :=
    if String.eqb mode "init" then 0%float else in_starttime input in
  if 0 <? in_n input then Throw tt
  else if negb ((in_rkorder input =? 3) || (in_rkorder input =? 4))
  then Throw tt
  else
    match
      iendtime ← to_ulong (ifactor * in_endtime input + 0.5)%float;
      istarttime ← to_ulong (ifactor * starttime + 0.5)%float;
      idt ← to_ulong (ifactor * in_dt input + 0.5)%float;
      idtmax ← to_ulong (ifactor * in_dtmax input + 0.5)%float;
      isavetime ← to_ulong (ifactor * in_savetime input + 0.5)%float;
      ipostproctime ←
        (if String.eqb mode "post"
         then to_ulong (ifactor * in_postproctime input + 0.5)%float
         else Some unset);
      iiotimeprec ←
        to_ulong (ifactor * pow10 (in_iotimeprec input) + 0.5)%float;
      Some {| substep := 0; ifactor := ifactor;
              adaptivestep := in_adaptivestep input;
              rkorder := in_rkorder input;
              outputiter := in_outputiter input; loop := true;
              time := 0; dt := in_dt input; iteration := 0; iotime := 0;
              itime := 0; iendtime := iendtime; istarttime := istarttime;
              idt := idt; idtmax := idtmax; idtlim := idt;
              isavetime := isavetime; ipostproctime := ipostproctime;
              iiotimeprec := iiotimeprec |}
    with
    | None => Undefined
    | Some tl =>
        if iiotimeprec tl =? 0 then Undefined
        else if negb (istarttime tl mod iiotimeprec tl =? 0)
                || negb (isavetime tl mod iiotimeprec tl =? 0)
        then Throw tt
        else Ret (set_iotime tl (to_int (istarttime tl / iiotimeprec tl))) tt
    end.

End Constructor.

(** ** Conditions named by the properties below *)

(** The constructor's test: 3 and 4 are the only valid values of
    [rkorder]. *)
Definition legal_rkorder (r : Z) : bool := (r =? 3) || (r =? 4).

(** The number of stages of the scheme [exec] runs for a legal [rkorder]:
    the modulus it applies to the substep counter. *)
Definition stages (r : Z) : Z :=
  if r =? 3 then RK3.nsubstep else RK4.nsubstep.

(** The wall-clock limit is observed at a point where a save can be made:
    the first test of [do_save]. *)
Definition limit_fires (master : Master) (tl : Timeloop) : Prop :=
  in_substep tl = false
  /\ itime tl mod iiotimeprec tl = 0
  /\ at_wall_clock_limit master = true.

(** A regular save point: the second test of [do_save]. *)
Definition regular_save (tl : Timeloop) : Prop :=
  in_substep tl = false
  /\ itime tl mod isavetime tl = 0
  /\ iteration tl <> 0.

(** ** Sample states *)

Module Sample.

(** The state the constructor leaves for [starttime=0], [endtime=3600],
    [savetime=1800], [dt=dtmax=10], [iotimeprec=0] and the defaults. *)
Definition start : Timeloop :=
  {| substep := 0; ifactor := 1000000000; adaptivestep := true;
     rkorder := 3; outputiter := 20; loop := true;
     time := 0; dt := 10; iteration := 0; iotime := 0;
     itime := 0; iendtime := 3600000000000; istarttime := 0;
     idt := 10000000000; idtmax := 10000000000; idtlim := 10000000000;
     isavetime := 1800000000000; ipostproctime := 0;
     iiotimeprec := 1000000000 |}.

(** Between two stages of the first step. *)
Definition mid_step : Timeloop := set_substep start 1.

(** At the first save point, 180 steps later. *)
Definition at_save : Timeloop :=
  set_iotime
    (set_iteration (set_itime (set_time start 1800) 1800000000000) 180)
    1800.

(** Restarted from the checkpoint of [at_save]. *)
Definition restarted : Timeloop :=
  {| substep := 0; ifactor := 1000000000; adaptivestep := true;
     rkorder := 3; outputiter := 20; loop := true;
     time := 1800; dt := 10; iteration := 180; iotime := 1800;
     itime := 1800000000000; iendtime := 3600000000000;
     istarttime := 1800000000000;
     idt := 10000000000; idtmax := 10000000000; idtlim := 10000000000;
     isavetime := 1800000000000; ipostproctime := 0;
     iiotimeprec := 1000000000 |}.

(** A post-processing run ([postproctime=1800]) at its start. *)
Definition post_start : Timeloop :=
  {| substep := 0; ifactor := 1000000000; adaptivestep := true;
     rkorder := 3; outputiter := 20; loop := true;
     time := 0; dt := 10; iteration := 0; iotime := 0;
     itime := 0; iendtime := 3600000000000; istarttime := 0;
     idt := 10000000000; idtmax := 10000000000; idtlim := 10000000000;
     isavetime := 1800000000000; ipostproctime := 1800000000000;
     iiotimeprec := 1000000000 |}.

(** The same run one [step_post_proc_time] later: [itime] has moved,
    [iteration] has not. *)
Definition post_step : Timeloop :=
  set_iotime (set_itime post_start 1800000000000) 1800.

(** A collaborator has lowered the step limit to 2.5 s; it is not yet
    committed. *)
Definition limited : Timeloop := set_time_step_limit_in 2500000000 start.

(** A collaborator has pushed the step limit down to zero ticks. *)
Definition limit_zero : Timeloop := set_time_step_limit_in 0 start.

Definition coordinator (limit : bool) : Master :=
  {| mpiid := 0; at_wall_clock_limit := limit |}.

Definition reference_times : list float := [10; 20; 30]%float.

(** The input of the sample run. *)
Definition input : Input :=
  {| in_n := 0; in_starttime := 0; in_endtime := 3600; in_savetime := 1800;
     in_adaptivestep := true; in_dtmax := 10; in_dt := 10;
     in_rkorder := 3; in_outputiter := 20; in_iotimeprec := 0;
     in_postproctime := 0 |}.

(** The same input with a save interval of zero. *)
Definition input_no_save : Input :=
  {| in_n := 0; in_starttime := 0; in_endtime := 3600; in_savetime := 0;
     in_adaptivestep := true; in_dtmax := 10; in_dt := 10;
     in_rkorder := 3; in_outputiter := 20; in_iotimeprec := 0;
     in_postproctime := 0 |}.

(** A power function that is exact where the sample run uses it. *)
Definition pow10 (e : Z) : float := if e =? 0 then 1%float else nan.

(** The same run with the five-stage fourth-order scheme. *)
Definition start4 : Timeloop :=
  {| substep := 0; ifactor := 1000000000; adaptivestep := true;
     rkorder := 4; outputiter := 20; loop := true;
     time := 0; dt := 10; iteration := 0; iotime := 0;
     itime := 0; iendtime := 3600000000000; istarttime := 0;
     idt := 10000000000; idtmax := 10000000000; idtlim := 10000000000;
     isavetime := 1800000000000; ipostproctime := 0;
     iiotimeprec := 1000000000 |}.

(** A grid of 2 x 1 x 1 points with one ghost cell on every side:
    rows of 4, slabs of 12, 36 cells. *)
Definition grid : Grid :=
  {| icells := 4; ijcells := 12;
     istart := 1; iend := 3; jstart := 1; jend := 2;
     kstart := 1; kend := 2 |}.

(** One prognostic field on that grid, 1 everywhere, with tendency 2. *)
Definition fields : Fields :=
  {| ap := {[ "u" := replicate 36 1%float ]};
     at_ := {[ "u" := replicate 36 2%float ]} |}.

End Sample.

(** ** Notions for the properties of the whole controller *)

(** Every integer member holds a value of its type. *)
Definition state_in_range (tl : Timeloop) : Prop :=
  is_int (substep tl) /\ is_int (rkorder tl) /\ is_int (outputiter tl)
  /\ is_int (iteration tl) /\ is_int (iotime tl)
  /\ is_ulong (itime tl) /\ is_ulong (iendtime tl)
  /\ is_ulong (istarttime tl) /\ is_ulong (idt tl) /\ is_ulong (idtmax tl)
  /\ is_ulong (idtlim tl) /\ is_ulong (isavetime tl)
  /\ is_ulong (ipostproctime tl) /\ is_ulong (iiotimeprec tl).

(** The state a call ends in, by return or by throw, satisfies [P]. *)
Definition ends_with {S A : Type} (P : S -> Prop) (o : outcome S A) : Prop :=
  match o with
  | Ret _ s => P s
  | Throw s => P s
  | Undefined => True
  end.

(** The floating step is the integer step converted back. *)
Definition step_consistent (tl : Timeloop) : Prop :=
  dt tl = (to_double (idt tl) / ifactor tl)%float.

(** The next multiple of [p] after [t]. *)
Definition next_multiple (t p : Z) : Z := (t / p + 1) * p.

(** The limit [set_time_step_limit()] computes, in exact arithmetic. *)
Definition default_limit (master : Master) (tl : Timeloop) : Z :=
  Z.min
    (if at_wall_clock_limit master
     then Z.min (idtmax tl) (iiotimeprec tl - itime tl mod iiotimeprec tl)
     else idtmax tl)
    (isavetime tl - itime tl mod isavetime tl).

(** [n] calls of [step_time] in a row. *)
Fixpoint step_time_n (n : nat) (tl : Timeloop) : outcome Timeloop unit :=
  match n with
  | O => Ret tt tl
  | Datatypes.S n' => bind (step_time tl) (fun _ tl' => step_time_n n' tl')
  end.

(** The limits of a list of collaborators, passed on one after the other
    through [set_time_step_limit(unsigned long)]. *)
Definition set_time_step_limits (limits : list Z) (tl : Timeloop)
  : Timeloop :=
  foldl (fun tl idtlimin => set_time_step_limit_in idtlimin tl) tl limits.

(** A cell outside the index ranges of the grid: a ghost cell. *)
Definition ghost (g : Grid) (n : nat) : Prop :=
  forall i j k, in_range g i j k -> cell g i j k <> n.

(** [a'] has the size of [a] and its ghost cells. *)
Definition same_ghosts (g : Grid) (a a' : list float) : Prop :=
  length a' = length a /\ forall n, ghost g n -> a' !! n = a !! n.

(** The field sets [f] and [f'] have the same names, and each array of
    [f'] has the size and the ghost cells of its namesake in [f]. *)
Definition fields_same_ghosts (g : Grid) (f f' : Fields) : Prop :=
  forall name,
    option_Forall2 (same_ghosts g) (ap f !! name) (ap f' !! name)
    /\ option_Forall2 (same_ghosts g) (at_ f !! name) (at_ f' !! name).

(** * Properties *)

Local Ltac case_bool :=
  repeat match goal with
    | |- context [Z.eqb ?a ?b] => destruct (Z.eqb_spec a b)
    | |- context [Z.ltb ?a ?b] => destruct (Z.ltb_spec a b)
    | |- context [Z.leb ?a ?b] => destruct (Z.leb_spec a b)
    end.

Lemma in_substep_true (tl : Timeloop) : in_substep tl = true <-> 0 < substep tl.
Proof. unfold in_substep. apply Z.ltb_lt. Qed.

Lemma in_substep_false (tl : Timeloop) :
  in_substep tl = false <-> substep tl <= 0.
Proof. unfold in_substep. apply Z.ltb_ge. Qed.

(** ** [step_time] between substeps *)

(** C7: for every state with [substep > 0], [step_time] returns normally
    and leaves the whole state as it was: [time], [itime], [iteration] and
    the [loop] flag are unchanged. *)
Theorem step_time_in_substep (tl : Timeloop) :
  0 < substep tl -> step_time tl = Ret tt tl.
Proof.
  intros Hsub. unfold step_time.
  apply in_substep_true in Hsub. now rewrite Hsub.
Qed.

Lemma step_time_in_substep_witness :
  0 < substep Sample.mid_step
  /\ step_time Sample.mid_step = Ret tt Sample.mid_step.
Proof.
  split; [reflexivity | apply step_time_in_substep; reflexivity].
Defined.

(** Outside a substep the clocks do move: the first step of the sample
    run. *)
Example step_time_first_step :
  exists tl', step_time Sample.start = Ret tt tl'
    /\ itime tl' = 10000000000 /\ iteration tl' = 1
    /\ time tl' = 10%float /\ loop tl' = true.
Proof. eexists. split; [vm_compute; reflexivity | repeat split]. Qed.

(** The step limit of the sample run: [dtmax] far from a save point, the
    distance to the save point close to it, and the distance to the next
    multiple of [iiotimeprec] once the wall-clock limit is reached. *)
Example set_time_step_limit_samples :
  (exists tl', set_time_step_limit (Sample.coordinator false) Sample.start
               = Ret tt tl' /\ idtlim tl' = 10000000000)
  /\ (exists tl',
        set_time_step_limit (Sample.coordinator false)
          (set_itime Sample.start 1795000000000) = Ret tt tl'
        /\ idtlim tl' = 5000000000)
  /\ (exists tl',
        set_time_step_limit (Sample.coordinator true)
          (set_itime Sample.start 1500000000) = Ret tt tl'
        /\ idtlim tl' = 500000000).
Proof.
  repeat split; eexists; (split; [vm_compute; reflexivity | reflexivity]).
Qed.

(** [Sample.post_step] is where [step_post_proc_time] takes
    [Sample.post_start]. *)
Example step_post_proc_time_sample :
  step_post_proc_time Sample.post_start = Ret tt Sample.post_step.
Proof. reflexivity. Qed.

(** ** [is_stats_step] *)

(** C10: [is_stats_step] returns true exactly when the controller is not
    in a substep and it is not the case that both [iteration > 0] and
    [itime == istarttime]; for a substep counter that is not negative,
    not being in a substep is [substep == 0]; in particular the first full
    step after a restart gets no statistics. *)
Theorem is_stats_step_spec (tl : Timeloop) :
  (is_stats_step tl = true <->
     in_substep tl = false
     /\ ~ (0 < iteration tl /\ itime tl = istarttime tl))
  /\ (0 <= substep tl -> (in_substep tl = false <-> substep tl = 0))
  /\ (in_substep tl = false -> 0 < iteration tl ->
      itime tl = istarttime tl -> is_stats_step tl = false).
Proof.
  unfold is_stats_step, in_substep. split; [split | split].
  - case_bool; simpl; intros Hr; try discriminate Hr.
    all: split; [reflexivity | lia].
  - intros [Hs Hn]. revert Hs. case_bool; simpl; intros; try discriminate;
      try reflexivity. exfalso. apply Hn. split; assumption.
  - intros Hs. rewrite Z.ltb_ge. lia.
  - intros Hs Hi Ht. rewrite Hs. simpl.
    apply Z.ltb_lt in Hi. apply Z.eqb_eq in Ht. now rewrite Hi, Ht.
Qed.

Lemma is_stats_step_spec_witness :
  in_substep Sample.restarted = false
  /\ 0 < iteration Sample.restarted
  /\ itime Sample.restarted = istarttime Sample.restarted
  /\ is_stats_step Sample.restarted = false.
Proof.
  split; [reflexivity | split; [reflexivity | split; [reflexivity | ]]].
  apply (proj2 (proj2 (is_stats_step_spec Sample.restarted)));
    reflexivity.
Defined.

(** ** [do_save] and the wall-clock limit *)

Lemma do_save_eq (master : Master) (tl : Timeloop) :
  0 < iiotimeprec tl -> 0 < isavetime tl ->
  do_save master tl =
    if (itime tl mod iiotimeprec tl =? 0) && negb (in_substep tl)
       && at_wall_clock_limit master
    then Ret true (set_loop tl false)
    else if (itime tl mod isavetime tl =? 0) && negb (iteration tl =? 0)
            && negb (in_substep tl)
    then Ret true tl
    else Ret false tl.
Proof.
  intros Hp Hs. unfold do_save.
  destruct (Z.eqb_spec (iiotimeprec tl) 0); [lia |].
  destruct (Z.eqb_spec (isavetime tl) 0); [lia |]. reflexivity.
Qed.

(** C1, as amended: with non-zero [iiotimeprec] and [isavetime], [do_save]
    returns true exactly when the wall-clock limit is observed at a point
    where a save can be made (outside a substep, [itime] a multiple of
    [iiotimeprec]) or at a regular save point (outside a substep, [itime] a
    multiple of [isavetime], [iteration != 0]). In the first case, and only
    then, the same call clears the [loop] flag, so that [is_finished] is
    true; otherwise the state is unchanged. *)
Theorem do_save_spec (master : Master) (tl : Timeloop) :
  0 < iiotimeprec tl -> 0 < isavetime tl ->
  exists b tl',
    do_save master tl = Ret b tl'
    /\ (b = true <-> limit_fires master tl \/ regular_save tl)
    /\ (limit_fires master tl ->
        b = true /\ tl' = set_loop tl false /\ is_finished tl' = true)
    /\ (~ limit_fires master tl -> tl' = tl).
Proof.
  intros Hp Hs. rewrite do_save_eq by assumption.
  unfold limit_fires, regular_save.
  destruct (in_substep tl) eqn:Hin; simpl.
  - rewrite !andb_false_r. exists false, tl. repeat split;
      try discriminate; intuition discriminate.
  - rewrite !andb_true_r.
    destruct (Z.eqb_spec (itime tl mod iiotimeprec tl) 0) as [Hm | Hm];
      simpl.
    + destruct (at_wall_clock_limit master) eqn:Hw.
      * exists true, (set_loop tl false). intuition.
      * destruct (Z.eqb_spec (itime tl mod isavetime tl) 0) as [Hm' | Hm'];
          destruct (Z.eqb_spec (iteration tl) 0) as [Hi | Hi]; simpl;
          eexists _, tl; (split; [reflexivity |]); intuition discriminate.
    + destruct (Z.eqb_spec (itime tl mod isavetime tl) 0) as [Hm' | Hm'];
        destruct (Z.eqb_spec (iteration tl) 0) as [Hi | Hi]; simpl;
        eexists _, tl; (split; [reflexivity |]); intuition discriminate.
Qed.

Lemma do_save_spec_witness :
  exists b tl',
    do_save (Sample.coordinator true) Sample.at_save = Ret b tl'
    /\ (b = true <->
        limit_fires (Sample.coordinator true) Sample.at_save
        \/ regular_save Sample.at_save)
    /\ (limit_fires (Sample.coordinator true) Sample.at_save ->
        b = true /\ tl' = set_loop Sample.at_save false
        /\ is_finished tl' = true)
    /\ (~ limit_fires (Sample.coordinator true) Sample.at_save ->
        tl' = Sample.at_save).
Proof.
  apply (do_save_spec (Sample.coordinator true) Sample.at_save);
    reflexivity.
Defined.

(** C1 as stated fails twice. The wall-clock limit can be reached while
    [do_save] returns false and leaves [loop] set (here in a substep); and
    [itime] can be a non-zero multiple of [isavetime] outside a substep
    while [do_save] returns false (here with [iteration] still 0). *)
Lemma do_save_counterexample :
  (at_wall_clock_limit (Sample.coordinator true) = true
   /\ do_save (Sample.coordinator true) Sample.mid_step
      = Ret false Sample.mid_step
   /\ is_finished Sample.mid_step = false)
  /\ (itime Sample.post_step mod isavetime Sample.post_step = 0
      /\ itime Sample.post_step <> 0
      /\ in_substep Sample.post_step = false
      /\ do_save (Sample.coordinator false) Sample.post_step
         = Ret false Sample.post_step).
Proof.
  split; [repeat split | split; [| split; [| split]]];
    try reflexivity; discriminate.
Qed.

(** ** [set_time_step] *)

(** C2, as amended: in a substep [set_time_step] changes nothing. Outside
    a substep and in adaptive mode, when neither the current step [idt]
    nor the limit [idtlim] is zero, it commits [idt = idtlim] and
    [dt = idt / ifactor]; when both are zero it throws. Whenever it throws,
    nothing has been committed. *)
Theorem set_time_step_spec (tl : Timeloop) :
  (in_substep tl = true -> set_time_step tl = Ret tt tl)
  /\ (in_substep tl = false -> adaptivestep tl = true ->
      idt tl <> 0 -> idtlim tl <> 0 ->
      exists tl',
        set_time_step tl = Ret tt tl'
        /\ tl' = set_dt (set_idt tl (idtlim tl))
                   (to_double (idtlim tl) / ifactor tl)%float
        /\ idt tl' = idtlim tl
        /\ dt tl' = (to_double (idt tl') / ifactor tl')%float)
  /\ (in_substep tl = false -> adaptivestep tl = true ->
      idt tl = 0 -> idtlim tl = 0 -> set_time_step tl = Throw tl)
  /\ (forall s, set_time_step tl = Throw s -> s = tl).
Proof.
  unfold set_time_step. repeat apply conj.
  - intros ->. reflexivity.
  - intros -> -> Hidt _. destruct (Z.eqb_spec (idt tl) 0); [contradiction |].
    eexists. repeat split.
  - intros -> -> -> _. reflexivity.
  - intros s. destruct (in_substep tl); [discriminate |].
    destruct (adaptivestep tl); [| discriminate].
    destruct (idt tl =? 0); [| discriminate]. congruence.
Qed.

Lemma set_time_step_spec_witness :
  exists tl',
    set_time_step Sample.limited = Ret tt tl'
    /\ tl' = set_dt (set_idt Sample.limited (idtlim Sample.limited))
               (to_double (idtlim Sample.limited)
                / ifactor Sample.limited)%float
    /\ idt tl' = idtlim Sample.limited
    /\ dt tl' = (to_double (idt tl') / ifactor tl')%float.
Proof.
  apply (proj1 (proj2 (set_time_step_spec Sample.limited)));
    [reflexivity | reflexivity | discriminate | discriminate].
Defined.

(** The committed step of the sample state is 2.5 s. *)
Example set_time_step_limited :
  exists tl', set_time_step Sample.limited = Ret tt tl'
    /\ idt tl' = 2500000000 /\ dt tl' = 2.5%float.
Proof. eexists. split; [vm_compute; reflexivity | split; reflexivity]. Qed.

(** C2 as stated fails in a substep: adaptive mode is on and a limit
    differing from the current step has been computed, yet the call
    returns without committing it. *)
Lemma set_time_step_counterexample :
  adaptivestep (set_substep Sample.limited 1) = true
  /\ set_time_step (set_substep Sample.limited 1)
     = Ret tt (set_substep Sample.limited 1)
  /\ idt (set_substep Sample.limited 1)
     <> idtlim (set_substep Sample.limited 1).
Proof. repeat split. discriminate. Qed.

(** The zero test of [set_time_step] reads [idt] before the assignment
    [idt = idtlim]: a limit of zero ticks is committed without an error
    when the step held on entry is not zero. *)
Lemma set_time_step_commits_zero :
  exists tl', set_time_step Sample.limit_zero = Ret tt tl'
    /\ idt tl' = 0 /\ dt tl' = 0%float.
Proof. eexists. split; [vm_compute; reflexivity | split; reflexivity]. Qed.

(** ** The coefficient tables *)

(** C4, as amended: the [cB] coefficients sum to 433/240 for [rkorder] 3
    and to more than 2 for [rkorder] 4, so to 1 for neither. What sums to
    exactly 1 for [rkorder] 3 are the [cB] weighted by the factors the
    rescaling of the tendency by [cA] accumulates; for [rkorder] 4 that
    weighted sum is within 1e-25 of 1. *)
Theorem cB_sums :
  Qeq (sum_Q RK3.cB) (433 # 240)
  /\ Qlt (inject_Z 2) (sum_Q RK4.cB)
  /\ Qeq (accumulated (inject_Z 0) RK3.cA RK3.cB) (inject_Z 1)
  /\ Qlt (Qabs (Qminus (accumulated (inject_Z 0) RK4.cA RK4.cB) (inject_Z 1)))
         (1 # 10 ^ 25).
Proof. repeat split; vm_compute; reflexivity. Qed.

(** C4 as stated fails for [rkorder] 3 (and 4): the sum of [cB] is not 1. *)
Lemma cB_sum_counterexample :
  ~ Qeq (sum_Q RK3.cB) (inject_Z 1) /\ ~ Qeq (sum_Q RK4.cB) (inject_Z 1).
Proof. split; intros H; vm_compute in H; discriminate H. Qed.

(** The first entry of both [cA] tables is the double zero. *)
Lemma cA_0_zero :
  eval_double <$> index RK3.cA 0 = Some 0%float
  /\ eval_double <$> index RK4.cA 0 = Some 0%float.
Proof. split; reflexivity. Qed.

(** ** [get_interpolation_factors] *)

(** C6: with reference times [10, 20, 30], at time 5 the indices are (0,0)
    and the weights (0,1); at time 25 the indices are (1,2) and the weights
    are the distances to the other reference time over the width of the
    bracket, here 0.5 each, and sum to 1; at time 35 the indices are (2,2)
    and the weights (1,0). *)
Theorem get_interpolation_factors_examples (tl : Timeloop) :
  get_interpolation_factors (set_time tl 5) Sample.reference_times
  = Some {| index0 := 0; index1 := 0; fac0 := 0; fac1 := 1 |}
  /\ (exists r,
        get_interpolation_factors (set_time tl 25) Sample.reference_times
        = Some r
        /\ index0 r = 1 /\ index1 r = 2
        /\ fac0 r = ((30 - 25) / (30 - 20))%float
        /\ fac1 r = ((25 - 20) / (30 - 20))%float
        /\ (fac0 r + fac1 r)%float = 1%float)
  /\ get_interpolation_factors (set_time tl 35) Sample.reference_times
     = Some {| index0 := 2; index1 := 2; fac0 := 1; fac1 := 0 |}.
Proof.
  split; [| split].
  - vm_compute. reflexivity.
  - eexists. split; [vm_compute; reflexivity |]. repeat split.
  - vm_compute. reflexivity.
Qed.

(** Clamping in general: before the first reference time the result is the
    first entry with weights (0,1); at or after every reference time it is
    the last entry with weights (1,0). *)
Lemma get_interpolation_factors_before (tl : Timeloop) (t : float)
  (rest : list float) :
  (time tl <? t)%float = true ->
  get_interpolation_factors tl (t :: rest)
  = Some {| index0 := 0; index1 := 0; fac0 := 0; fac1 := 1 |}.
Proof.
  intros Hlt. unfold get_interpolation_factors. simpl. now rewrite Hlt.
Qed.

Lemma scan_times_all (time : float) (timevec : list float) (i : Z) :
  (forall t, t ∈ timevec -> (time <? t)%float = false) ->
  INT_MIN <= i -> i + Z.of_nat (length timevec) <= INT_MAX ->
  scan_times time timevec i = Some (i + Z.of_nat (length timevec)).
Proof.
  revert i. induction timevec as [| t rest IH]; intros i Hall Hlo Hhi.
  - simpl. f_equal. lia.
  - simpl length in *. simpl scan_times.
    rewrite (Hall t) by apply list_elem_of_here.
    assert (in_int (i + 1) = true) as ->.
    { unfold in_int. apply andb_true_iff. split; apply Z.leb_le; lia. }
    rewrite IH.
    + f_equal. lia.
    + intros t' Ht'. apply Hall. now apply list_elem_of_further.
    + lia.
    + lia.
Qed.

(** X12: when no reference time is above the current time, the result is
    the last entry of the (non-empty) sequence, twice, with the weights
    (1,0): beyond its end the sequence is held, not extrapolated. *)
Lemma get_interpolation_factors_after (tl : Timeloop) (timevec : list float) :
  timevec <> [] -> Z.of_nat (length timevec) <= INT_MAX ->
  (forall t, t ∈ timevec -> (time tl <? t)%float = false) ->
  get_interpolation_factors tl timevec
  = Some {| index0 := Z.of_nat (length timevec) - 1;
            index1 := Z.of_nat (length timevec) - 1;
            fac0 := 1; fac1 := 0 |}.
Proof.
  intros Hne Hlen Hall. unfold get_interpolation_factors.
  rewrite scan_times_all by (try assumption; unfold INT_MIN; lia).
  simpl. destruct timevec as [| t rest]; [contradiction |].
  simpl length. rewrite Z.add_0_l.
  destruct (Z.eqb_spec (Z.of_nat (S (length rest))) 0); [lia |].
  now rewrite Z.eqb_refl.
Qed.

(** ** The checkpoint record *)

Lemma Z_of_byte_of_Z (z : Z) : Codec.Z_of_byte (Codec.byte_of_Z z) = z mod 256.
Proof.
  unfold Codec.Z_of_byte, Codec.byte_of_Z.
  pose proof (Z.mod_pos_bound z 256 eq_refl) as Hb.
  destruct (Byte.of_N (Z.to_N (z mod 256))) as [b |] eqn:E.
  - apply Byte.to_of_N in E. rewrite E. apply Z2N.id. lia.
  - apply Byte.of_N_None_iff in E. lia.
Qed.

Lemma length_encode (n : nat) (z : Z) : length (Codec.encode n z) = n.
Proof. revert z. induction n; intros z; simpl; [| rewrite IHn]; reflexivity. Qed.

Lemma decode_encode (n : nat) (z : Z) :
  Codec.decode (Codec.encode n z) = z mod 256 ^ Z.of_nat n.
Proof.
  revert z. induction n as [| n IH]; intros z.
  - simpl. now rewrite Z.mod_1_r.
  - cbn [Codec.encode Codec.decode]. rewrite Z_of_byte_of_Z, IH.
    rewrite Nat2Z.inj_succ, Z.pow_succ_r by lia.
    rewrite Z.rem_mul_r by lia. reflexivity.
Qed.

Lemma decode_encode_ulong (z : Z) :
  is_ulong z -> Codec.decode (Codec.encode Codec.sizeof_ulong z) = z.
Proof.
  intros Hz. rewrite decode_encode. apply Z.mod_small. exact Hz.
Qed.

Lemma decode_encode_int (z : Z) :
  is_int z -> Codec.decode_int (Codec.encode Codec.sizeof_int z) = z.
Proof.
  unfold is_int, INT_MIN, INT_MAX. intros Hz.
  unfold Codec.decode_int, to_int. rewrite decode_encode.
  change (256 ^ Z.of_nat Codec.sizeof_int) with (2 ^ 32).
  rewrite Zplus_mod_idemp_l, Z.mod_small; lia.
Qed.

Lemma fread_encode (n : nat) (z : Z) (rest : list byte) :
  Codec.fread n (Codec.encode n z ++ rest) = Some (Codec.encode n z, rest).
Proof.
  unfold Codec.fread.
  rewrite decide_True by (rewrite length_app, length_encode; lia).
  rewrite take_app_length', drop_app_length' by now rewrite length_encode.
  reflexivity.
Qed.

Lemma read_record_encode (tl restart : Timeloop) :
  is_ulong (itime tl) -> is_ulong (idt tl) -> is_int (iteration tl) ->
  read_record restart
    (Codec.encode Codec.sizeof_ulong (itime tl)
     ++ Codec.encode Codec.sizeof_ulong (idt tl)
     ++ Codec.encode Codec.sizeof_int (iteration tl))
  = Some (set_iteration (set_idt (set_itime restart (itime tl)) (idt tl))
            (iteration tl)).
Proof.
  intros Hi Hd Hn. unfold read_record.
  rewrite fread_encode. cbn [mbind option_bind fst snd].
  rewrite fread_encode. cbn [mbind option_bind fst snd].
  rewrite <- (app_nil_r (Codec.encode Codec.sizeof_int _)), fread_encode.
  cbn [mbind option_bind fst snd].
  rewrite !decode_encode_ulong, decode_encode_int by assumption.
  reflexivity.
Qed.

(** C8: on the coordinator, for every time state (its [unsigned long] and
    [int] members in range) and every directory without the checkpoint
    file, [save(t)] succeeds and a following [load(t)], from whatever state
    the loading run is in, succeeds and leaves [itime], [idt] and
    [iteration] as they were saved, with [time == itime / ifactor] and
    [dt == idt / ifactor] exactly. *)
Theorem save_load_roundtrip (master : Master) (sent sent' : Sent)
  (starttime : Z) (tl restart : Timeloop) (files : Files) :
  mpiid master = 0 ->
  is_ulong (itime tl) -> is_ulong (idt tl) -> is_int (iteration tl) ->
  files !! Codec.filename starttime = None ->
  exists files',
    save master sent starttime (tl, files) = Ret tt (tl, files')
    /\ exists tl',
        load master sent' starttime (restart, files') = Ret tt (tl', files')
        /\ itime tl' = itime tl
        /\ idt tl' = idt tl
        /\ iteration tl' = iteration tl
        /\ time tl' = (to_double (itime tl') / ifactor tl')%float
        /\ dt tl' = (to_double (idt tl') / ifactor tl')%float.
Proof.
  intros Hroot Hi Hd Hn Hnew.
  unfold save, load, broadcast. rewrite Hroot.
  cbn [Z.eqb fst snd bind]. rewrite Hnew. cbn [Z.eqb fst snd bind].
  eexists. split; [reflexivity |].
  rewrite lookup_insert_eq, read_record_encode by assumption.
  cbn [Z.eqb fst snd bind].
  eexists. split; [reflexivity |]. repeat split.
Qed.

Lemma save_load_roundtrip_witness :
  exists files',
    save (Sample.coordinator false) (Build_Sent 0 0 0 0) 1800
      (Sample.at_save, ∅) = Ret tt (Sample.at_save, files')
    /\ exists tl',
        load (Sample.coordinator false) (Build_Sent 0 0 0 0) 1800
          (Sample.start, files') = Ret tt (tl', files')
        /\ itime tl' = itime Sample.at_save
        /\ idt tl' = idt Sample.at_save
        /\ iteration tl' = iteration Sample.at_save
        /\ time tl' = (to_double (itime tl') / ifactor tl')%float
        /\ dt tl' = (to_double (idt tl') / ifactor tl')%float.
Proof.
  apply save_load_roundtrip;
    [reflexivity | vm_compute; split; [discriminate | reflexivity]
    | vm_compute; split; [discriminate | reflexivity]
    | vm_compute; split; discriminate
    | reflexivity].
Defined.

(** The other ranks take their outcome and their time state from the
    coordinator's broadcasts. *)
Lemma load_other_rank (master : Master) (sent : Sent) (starttime : Z)
  (tl : Timeloop) (files : Files) :
  mpiid master <> 0 -> sent_nerror sent = 0 ->
  exists tl',
    load master sent starttime (tl, files) = Ret tt (tl', files)
    /\ itime tl' = sent_itime sent
    /\ idt tl' = sent_idt sent
    /\ iteration tl' = sent_iteration sent
    /\ time tl' = (to_double (itime tl') / ifactor tl')%float
    /\ dt tl' = (to_double (idt tl') / ifactor tl')%float.
Proof.
  intros Hrank Hok. unfold load, broadcast.
  destruct (Z.eqb_spec (mpiid master) 0); [contradiction |].
  simpl. rewrite Hok. simpl. eexists. split; [reflexivity |]. repeat split.
Qed.

(** C9: on the coordinator, [save] throws and leaves the directory as it
    was when the checkpoint file exists, and [load] throws and leaves the
    time state as it was when the file is absent. *)
Theorem checkpoint_failures (master : Master) (sent : Sent) (starttime : Z)
  (tl : Timeloop) (files : Files) :
  mpiid master = 0 ->
  (is_Some (files !! Codec.filename starttime) ->
   save master sent starttime (tl, files) = Throw (tl, files))
  /\ (files !! Codec.filename starttime = None ->
      load master sent starttime (tl, files) = Throw (tl, files)).
Proof.
  intros Hroot. unfold save, load, broadcast. rewrite Hroot. simpl. split.
  - intros [content ->]. reflexivity.
  - intros ->. reflexivity.
Qed.

Lemma checkpoint_failures_witness :
  save (Sample.coordinator false) (Build_Sent 0 0 0 0) 0
    (Sample.start, {[ Codec.filename 0 := [] ]})
  = Throw (Sample.start, {[ Codec.filename 0 := [] ]})
  /\ load (Sample.coordinator false) (Build_Sent 0 0 0 0) 0
       (Sample.start, ∅)
     = Throw (Sample.start, ∅).
Proof.
  split.
  - apply checkpoint_failures; [reflexivity |].
    rewrite lookup_singleton_eq. eexists. reflexivity.
  - apply checkpoint_failures; reflexivity.
Defined.

(** The other ranks follow the coordinator: its error count reaches them in
    the broadcast, and they throw with it, their state untouched. *)
Lemma checkpoint_failure_followed (master : Master) (sent : Sent)
  (starttime : Z) (tl : Timeloop) (files : Files) :
  mpiid master <> 0 -> sent_nerror sent <> 0 ->
  save master sent starttime (tl, files) = Throw (tl, files)
  /\ load master sent starttime (tl, files) = Throw (tl, files).
Proof.
  intros Hrank Herr. unfold save, load, broadcast.
  destruct (Z.eqb_spec (mpiid master) 0); [contradiction |]. simpl.
  destruct (Z.eqb_spec (sent_nerror sent) 0); [contradiction |].
  split; reflexivity.
Qed.

(** ** Loops as folds *)

Lemma foldM_app {A S : Type} (body : A -> S -> option S) (l1 l2 : list A)
  (s : S) :
  foldM body (l1 ++ l2) s
  = match foldM body l1 s with
    | Some s' => foldM body l2 s'
    | None => None
    end.
Proof.
  revert s. induction l1 as [| x l1 IH]; intros s; simpl; [reflexivity |].
  destruct (body x s); [apply IH | reflexivity].
Qed.

Lemma foldM_ext_in {A S : Type} (body1 body2 : A -> S -> option S)
  (l : list A) (s : S) :
  (forall x s', x ∈ l -> body1 x s' = body2 x s') ->
  foldM body1 l s = foldM body2 l s.
Proof.
  revert s. induction l as [| x l IH]; intros s Heq; simpl; [reflexivity |].
  rewrite (Heq x s) by apply list_elem_of_here.
  destruct (body2 x s); [| reflexivity].
  apply IH. intros y s' Hy. apply Heq. now apply list_elem_of_further.
Qed.

Lemma foldM_bind {A B S : Type} (body : B -> S -> option S)
  (f : A -> list B) (l : list A) (s : S) :
  foldM body (l ≫= f) s = foldM (fun x => foldM body (f x)) l s.
Proof.
  revert s. induction l as [| x l IH]; intros s; [reflexivity |].
  rewrite bind_cons, foldM_app. simpl.
  destruct (foldM body (f x) s); [apply IH | reflexivity].
Qed.

Lemma foldM_fmap {A B S : Type} (body : B -> S -> option S) (f : A -> B)
  (l : list A) (s : S) :
  foldM body (f <$> l) s = foldM (fun x => body (f x)) l s.
Proof.
  revert s. induction l as [| x l IH]; intros s; simpl; [reflexivity |].
  destruct (body (f x) s); [apply IH | reflexivity].
Qed.

Lemma for_loop_foldM {S : Type} (n : nat) (lo : Z)
  (body : Z -> S -> option S) (s : S) :
  for_loop n lo body s = foldM body (seqZ lo (Z.of_nat n)) s.
Proof.
  revert lo s. induction n as [| n IH]; intros lo s; [reflexivity |].
  rewrite seqZ_cons by lia. simpl for_loop. simpl foldM.
  destruct (body lo s); [| reflexivity].
  rewrite IH. do 2 f_equal. lia.
Qed.

Lemma for_range_foldM {S : Type} (lo hi : Z) (body : Z -> S -> option S)
  (s : S) :
  for_range lo hi body s = foldM body (seqZ lo (hi - lo)) s.
Proof.
  unfold for_range. rewrite for_loop_foldM. f_equal.
  unfold seqZ. now rewrite Nat2Z.id.
Qed.

Lemma grid_loop_foldM {S : Type} (g : Grid) (body : Z -> S -> option S)
  (s : S) :
  grid_loop g body s
  = foldM (fun p s => ijk ← ijk_of g p.1.1 p.1.2 p.2; body ijk s)
      (triples g) s.
Proof.
  unfold grid_loop, triples.
  rewrite for_range_foldM, foldM_bind. apply foldM_ext_in. intros k s1 _.
  rewrite for_range_foldM, foldM_bind. apply foldM_ext_in. intros j s2 _.
  rewrite for_range_foldM, foldM_bind. apply foldM_ext_in. intros i s3 _.
  simpl. now destruct (ijk_of g i j k ≫= _).
Qed.

Lemma elem_of_triples (g : Grid) (i j k : Z) :
  (i, j, k) ∈ triples g <-> in_range g i j k.
Proof.
  unfold triples, in_range. rewrite list_elem_of_bind. split.
  - intros (k' & Hj & Hk). apply list_elem_of_bind in Hj as (j' & Hi & Hj).
    apply list_elem_of_bind in Hi as (i' & Hp & Hi).
    apply list_elem_of_singleton in Hp. injection Hp as -> -> ->.
    apply elem_of_seqZ in Hi, Hj, Hk. lia.
  - intros (Hi & Hj & Hk). exists k. split; [| apply elem_of_seqZ; lia].
    apply list_elem_of_bind. exists j. split; [| apply elem_of_seqZ; lia].
    apply list_elem_of_bind. exists i. split; [| apply elem_of_seqZ; lia].
    apply list_elem_of_here.
Qed.

Lemma NoDup_triples (g : Grid) : NoDup (triples g).
Proof.
  unfold triples. apply NoDup_bind; [| | apply NoDup_seqZ].
  - intros k1 k2 p _ _ H1 H2.
    apply list_elem_of_bind in H1 as (j1 & H1 & _).
    apply list_elem_of_bind in H1 as (i1 & H1 & _).
    apply list_elem_of_bind in H2 as (j2 & H2 & _).
    apply list_elem_of_bind in H2 as (i2 & H2 & _).
    apply list_elem_of_singleton in H1, H2. congruence.
  - intros k _. apply NoDup_bind; [| | apply NoDup_seqZ].
    + intros j1 j2 p _ _ H1 H2.
      apply list_elem_of_bind in H1 as (i1 & H1 & _).
      apply list_elem_of_bind in H2 as (i2 & H2 & _).
      apply list_elem_of_singleton in H1, H2. congruence.
    + intros j _. apply NoDup_bind; [| | apply NoDup_seqZ].
      * intros i1 i2 p _ _ H1 H2.
        apply list_elem_of_singleton in H1, H2. congruence.
      * intros i _. apply NoDup_singleton.
Qed.

(** ** The cells of a well-formed grid *)

Lemma cell_bounds (g : Grid) (n i j k : Z) :
  grid_ok g n -> in_range g i j k ->
  0 <= j * icells g
  /\ 0 <= i + j * icells g < ijcells g
  /\ 0 <= k * ijcells g
  /\ 0 <= i + j * icells g + k * ijcells g < n.
Proof.
  unfold grid_ok, in_range.
  intros (Hi0 & Hi1 & Hj0 & Hj1 & Hk0 & Hk1 & _) (Hi & Hj & Hk).
  assert (0 < icells g) by lia.
  assert (0 <= j * icells g) by nia.
  assert ((j + 1) * icells g <= jend g * icells g) by nia.
  assert (0 < ijcells g) by nia.
  assert (0 <= k * ijcells g) by nia.
  assert ((k + 1) * ijcells g <= kend g * ijcells g) by nia.
  lia.
Qed.

Lemma ijk_of_ok (g : Grid) (n i j k : Z) :
  grid_ok g n -> in_range g i j k ->
  ijk_of g i j k = Some (i + j * icells g + k * ijcells g).
Proof.
  intros Hg Hr. pose proof (cell_bounds g n i j k Hg Hr) as (H1 & H2 & H3 & H4).
  assert (n <= INT_MAX) as Hn by apply Hg.
  assert (0 <= i) by (destruct Hg, Hr; lia).
  unfold ijk_of.
  assert (forall z, 0 <= z < n -> in_int z = true) as Hint.
  { intros z Hz. unfold in_int, INT_MIN in *.
    apply andb_true_iff. split; apply Z.leb_le; lia. }
  rewrite !Hint by lia. reflexivity.
Qed.

Lemma cell_inj (g : Grid) (n i j k i' j' k' : Z) :
  grid_ok g n -> in_range g i j k -> in_range g i' j' k' ->
  cell g i j k = cell g i' j' k' -> (i, j, k) = (i', j', k').
Proof.
  intros Hg Hr Hr' Hc.
  pose proof (cell_bounds g n i j k Hg Hr) as (H1 & H2 & H3 & H4).
  pose proof (cell_bounds g n i' j' k' Hg Hr') as (H1' & H2' & H3' & H4').
  unfold cell in Hc. apply Z2Nat.inj in Hc; [| lia | lia].
  assert (0 <= i < icells g) by (destruct Hg as (? & ? & _), Hr; lia).
  assert (0 <= i' < icells g) by (destruct Hg as (? & ? & _), Hr'; lia).
  assert (k = k') as -> by nia.
  assert (j = j') as -> by nia.
  assert (i = i') as -> by lia.
  reflexivity.
Qed.

Lemma NoDup_cells (g : Grid) (n : Z) :
  grid_ok g n ->
  NoDup ((fun p : Z * Z * Z => cell g p.1.1 p.1.2 p.2) <$> triples g).
Proof.
  intros Hg. apply NoDup_fmap_2_strong; [| apply NoDup_triples].
  intros [[i j] k] [[i' j'] k'] Hp Hp' Hc. simpl in Hc.
  apply elem_of_triples in Hp, Hp'. now apply (cell_inj g n).
Qed.

(** A loop that rewrites cell [n] from its own old value, over cells
    visited once each. *)
Lemma foldM_update (F : nat -> float -> float) (l : list nat)
  (a : list float) :
  NoDup l -> (forall n, n ∈ l -> (n < length a)%nat) ->
  exists a',
    foldM (fun n a => x ← a !! n; Some (<[n := F n x]> a)) l a = Some a'
    /\ length a' = length a
    /\ (forall n, n ∈ l -> a' !! n = F n <$> a !! n)
    /\ (forall n, n ∉ l -> a' !! n = a !! n).
Proof.
  revert a. induction l as [| m l IH]; intros a Hnd Hlt.
  - exists a. repeat split; intros n Hn. now apply elem_of_nil in Hn.
  - apply NoDup_cons in Hnd as [Hm Hnd].
    destruct (lookup_lt_is_Some_2 a m) as [v Hv];
      [apply Hlt, list_elem_of_here |].
    destruct (IH (<[m := F m v]> a) Hnd) as (a' & Hrun & Hlen & Hin & Hout).
    { intros n Hn. rewrite length_insert.
      apply Hlt. now apply list_elem_of_further. }
    exists a'. simpl. rewrite Hv. simpl. rewrite Hrun.
    rewrite length_insert in Hlen. repeat split; [assumption | |].
    + intros n Hn. apply elem_of_cons in Hn as [-> | Hn].
      * rewrite (Hout m Hm), Hv. apply list_lookup_insert_eq.
        now apply lookup_lt_Some in Hv.
      * rewrite (Hin n Hn). f_equal. apply list_lookup_insert_ne.
        intros ->. contradiction.
    + intros n Hn. apply not_elem_of_cons in Hn as [Hne Hn].
      rewrite (Hout n Hn). apply list_lookup_insert_ne. congruence.
Qed.

(** A grid loop whose body rewrites the cell it is given is such a loop
    over the cells of the index ranges. *)
Lemma grid_loop_update (g : Grid) (F : nat -> float -> float)
  (body : Z -> list float -> option (list float)) (a : list float) :
  grid_ok g (Z.of_nat (length a)) ->
  (forall ijk s, 0 <= ijk < Z.of_nat (length a) ->
     body ijk s
     = (x ← s !! Z.to_nat ijk; Some (<[Z.to_nat ijk := F (Z.to_nat ijk) x]> s))) ->
  exists a',
    grid_loop g body a = Some a'
    /\ length a' = length a
    /\ (forall i j k, in_range g i j k ->
        a' !! cell g i j k = F (cell g i j k) <$> a !! cell g i j k)
    /\ (forall n, (forall i j k, in_range g i j k -> cell g i j k <> n) ->
        a' !! n = a !! n).
Proof.
  intros Hg Hbody.
  pose (c := fun p : Z * Z * Z => cell g p.1.1 p.1.2 p.2).
  destruct (foldM_update F (c <$> triples g) a) as (a' & Hrun & Hlen & Hin & Hout).
  { apply (NoDup_cells g _ Hg). }
  { intros n Hn. apply list_elem_of_fmap in Hn as ([[i j] k] & -> & Hp).
    apply elem_of_triples in Hp.
    pose proof (cell_bounds g _ i j k Hg Hp) as (_ & _ & _ & Hb).
    unfold c, cell. simpl. lia. }
  exists a'. repeat split; [| assumption | |].
  - rewrite grid_loop_foldM, <- Hrun, foldM_fmap.
    apply foldM_ext_in. intros [[i j] k] s Hp. simpl.
    apply elem_of_triples in Hp. rewrite (ijk_of_ok g _ i j k Hg Hp). simpl.
    apply Hbody. now apply (cell_bounds g _ i j k Hg Hp).
  - intros i j k Hr. apply Hin. apply list_elem_of_fmap.
    exists (i, j, k). split; [reflexivity | now apply elem_of_triples].
  - intros n Hn. apply Hout. intros Hc.
    apply list_elem_of_fmap in Hc as ([[i j] k] & -> & Hp).
    apply elem_of_triples in Hp. now apply (Hn i j k).
Qed.

(** ** The stage kernels *)

Lemma index_nonneg {A : Type} (l : list A) (i : Z) :
  0 <= i -> index l i = l !! Z.to_nat i.
Proof.
  intros Hi. unfold index. destruct (Z.ltb_spec i 0); [lia | reflexivity].
Qed.

Lemma rk_stage (g : Grid) (cA cB : list cexpr) (modulus substep : Z)
  (a at_ : list float) (dt : float) (cb ca : cexpr) :
  grid_ok g (Z.of_nat (length a)) -> length at_ = length a ->
  in_int (substep + 1) = true ->
  index cB substep = Some cb ->
  index cA (Z.rem (substep + 1) modulus) = Some ca ->
  exists a' at',
    rk g cA cB modulus substep a at_ dt = Some (a', at')
    /\ stage_updates g (eval_double cb) (eval_double ca) dt a at_ a' at'.
Proof.
  intros Hg Hlen Hint Hcb Hca.
  destruct (grid_loop_update g
              (fun n x => match at_ !! n with
                          | Some t => (x + eval_double cb * dt * t)%float
                          | None => x
                          end)
              (update_a cB substep dt at_) a Hg)
    as (a' & Hrun & Hla & Hin & Hout).
  { intros ijk s Hb. unfold update_a. rewrite Hcb. simpl.
    rewrite !index_nonneg by lia.
    destruct (lookup_lt_is_Some_2 at_ (Z.to_nat ijk)) as [t ->]; [lia |].
    reflexivity. }
  destruct (grid_loop_update g (fun _ t => (eval_double ca * t)%float)
              (scale_at cA (Z.rem (substep + 1) modulus)) at_)
    as (at' & Hrun' & Hla' & Hin' & Hout').
  { now rewrite Hlen. }
  { intros ijk s Hb. unfold scale_at. rewrite Hca. simpl.
    now rewrite index_nonneg by lia. }
  exists a', at'. split.
  - unfold rk. rewrite Hrun. simpl. rewrite Hint, Hrun'. reflexivity.
  - split; [assumption |]. split; [assumption |]. split.
    + intros i j k Hr.
      pose proof (cell_bounds g _ i j k Hg Hr) as (_ & _ & _ & Hb).
      destruct (lookup_lt_is_Some_2 a (cell g i j k)) as [x Hx];
        [unfold cell; lia |].
      destruct (lookup_lt_is_Some_2 at_ (cell g i j k)) as [t Ht];
        [unfold cell; lia |].
      exists x, t. rewrite (Hin i j k Hr), (Hin' i j k Hr), Hx, Ht.
      repeat split.
    + intros n Hn. split; [now apply Hout | now apply Hout'].
Qed.

Lemma in_int_small (z : Z) : INT_MIN <= z <= INT_MAX -> in_int z = true.
Proof.
  intros Hz. unfold in_int. apply andb_true_iff. split; apply Z.leb_le; lia.
Qed.

Lemma index_table {A : Type} (tbl : list A) (i : Z) :
  0 <= i < Z.of_nat (length tbl) -> exists c, index tbl i = Some c.
Proof.
  intros Hi. rewrite index_nonneg by lia.
  apply lookup_lt_is_Some_2. lia.
Qed.

(** C5: on a grid whose index ranges fit the arrays, a call of [rk3]
    (substep 0..2) or [rk4] (substep 0..4) returns, having replaced [a[x]]
    by [a[x] + cB[substep]*dt*at[x]] and then [at[x]] by
    [cA[(substep+1) % S] * at[x]] at every grid point [x] of the index
    ranges ([S] the number of substeps of the scheme), and nothing else;
    [cA[0]] is zero in both tables, so the rescale that leads into substep 0
    multiplies the tendency by zero. *)
Theorem stage_kernel_spec (g : Grid) (tl : Timeloop) (a at_ : list float)
  (dt : float) :
  grid_ok g (Z.of_nat (length a)) -> length at_ = length a ->
  (0 <= substep tl < 3 ->
   exists cb ca a' at',
     index RK3.cB (substep tl) = Some cb
     /\ index RK3.cA ((substep tl + 1) mod 3) = Some ca
     /\ rk3 g tl a at_ dt = Some (a', at')
     /\ stage_updates g (eval_double cb) (eval_double ca) dt a at_ a' at')
  /\ (0 <= substep tl < 5 ->
      exists cb ca a' at',
        index RK4.cB (substep tl) = Some cb
        /\ index RK4.cA ((substep tl + 1) mod 5) = Some ca
        /\ rk4 g tl a at_ dt = Some (a', at')
        /\ stage_updates g (eval_double cb) (eval_double ca) dt a at_ a' at')
  /\ eval_double <$> index RK3.cA 0 = Some 0%float
  /\ eval_double <$> index RK4.cA 0 = Some 0%float.
Proof.
  intros Hg Hlen. split; [| split; [| apply cA_0_zero]].
  - intros Hs.
    destruct (index_table RK3.cB (substep tl)) as [cb Hcb]; [simpl; lia |].
    destruct (index_table RK3.cA ((substep tl + 1) mod 3)) as [ca Hca].
    { pose proof (Z.mod_pos_bound (substep tl + 1) 3). simpl. lia. }
    destruct (rk_stage g RK3.cA RK3.cB 3 (substep tl) a at_ dt cb ca)
      as (a' & at' & Hrun & Hupd); try assumption.
    { apply in_int_small. unfold INT_MIN, INT_MAX. lia. }
    { rewrite Z.rem_mod_nonneg by lia. assumption. }
    exists cb, ca, a', at'. auto.
  - intros Hs.
    destruct (index_table RK4.cB (substep tl)) as [cb Hcb]; [simpl; lia |].
    destruct (index_table RK4.cA ((substep tl + 1) mod 5)) as [ca Hca].
    { pose proof (Z.mod_pos_bound (substep tl + 1) 5). simpl. lia. }
    destruct (rk_stage g RK4.cA RK4.cB 5 (substep tl) a at_ dt cb ca)
      as (a' & at' & Hrun & Hupd); try assumption.
    { apply in_int_small. unfold INT_MIN, INT_MAX. lia. }
    { rewrite Z.rem_mod_nonneg by lia. assumption. }
    exists cb, ca, a', at'. auto.
Qed.

Lemma stage_kernel_spec_witness :
  exists cb ca a' at',
    index RK3.cB (substep Sample.start) = Some cb
    /\ index RK3.cA ((substep Sample.start + 1) mod 3) = Some ca
    /\ rk3 Sample.grid Sample.start
         (replicate 36 1%float) (replicate 36 2%float) 10
       = Some (a', at')
    /\ stage_updates Sample.grid (eval_double cb) (eval_double ca) 10
         (replicate 36 1%float) (replicate 36 2%float) a' at'.
Proof.
  apply (stage_kernel_spec Sample.grid Sample.start
           (replicate 36 1%float) (replicate 36 2%float) 10).
  - unfold grid_ok, INT_MAX. simpl. lia.
  - reflexivity.
  - simpl. lia.
Defined.

(** The first stage of the third-order scheme on the sample field: the two
    grid points (cells 17 and 18) move by [1/3 * 10 * 2] and keep [-5/9]
    of their tendency; the ghost cells next to them are untouched. *)
Example rk3_first_stage :
  exists a' at',
    rk3 Sample.grid Sample.start
      (replicate 36 1%float) (replicate 36 2%float) 10
    = Some (a', at')
    /\ a' !! 16%nat = Some 1%float
    /\ a' !! 17%nat = Some (1 + 1 / 3 * 10 * 2)%float
    /\ a' !! 18%nat = Some (1 + 1 / 3 * 10 * 2)%float
    /\ a' !! 19%nat = Some 1%float
    /\ at' !! 16%nat = Some 2%float
    /\ at' !! 17%nat = Some (- 5 / 9 * 2)%float
    /\ at' !! 18%nat = Some (- 5 / 9 * 2)%float.
Proof.
  eexists _, _. split; [vm_compute; reflexivity |].
  repeat split.
Qed.

(** The last stage leaves a zero tendency behind. *)
Example rk3_last_stage :
  exists a' at',
    rk3 Sample.grid (set_substep Sample.start 2)
      (replicate 36 1%float) (replicate 36 2%float) 10
    = Some (a', at')
    /\ at' !! 17%nat = Some 0%float
    /\ at' !! 18%nat = Some 0%float.
Proof.
  eexists _, _. split; [vm_compute; reflexivity |].
  repeat split.
Qed.

(** ** The substep counter *)

Lemma exec_fields_ok
  (kernel : list float -> list float -> option (list float * list float))
  (n : nat) (names : list string) (f : Fields) :
  (forall a t, length a = n -> length t = n ->
     exists r, kernel a t = Some r /\ length r.1 = n /\ length r.2 = n) ->
  fields_ok n f ->
  (forall name, name ∈ names -> is_Some (at_ f !! name)) ->
  exists f', exec_fields kernel names f = Some f' /\ fields_ok n f'.
Proof.
  intros Hk. revert f. induction names as [| name names IH]; intros f Hf Hn.
  - exists f. split; [reflexivity | assumption].
  - destruct (Hn name) as [t Ht]; [apply list_elem_of_here |].
    destruct (Hf name t Ht) as (Hlt & a & Ha & Hla).
    destruct (Hk a t Hla Hlt) as (r & Hr & Hr1 & Hr2).
    simpl. unfold exec_field. rewrite Ht, Ha. simpl. rewrite Hr. simpl.
    apply IH.
    + intros name' t'. simpl. intros Hl.
      destruct (decide (name' = name)) as [-> | Hne].
      * rewrite lookup_insert_eq in Hl. injection Hl as <-.
        split; [assumption |]. exists r.1.
        split; [apply lookup_insert_eq | assumption].
      * rewrite lookup_insert_ne in Hl by congruence.
        destruct (Hf name' t' Hl) as (Hlt' & a' & Ha' & Hla').
        split; [assumption |]. exists a'.
        split; [| assumption]. now rewrite lookup_insert_ne by congruence.
    + intros name' Hin. simpl. apply lookup_insert_is_Some'. right.
      apply Hn. now apply list_elem_of_further.
Qed.

Lemma exec_order_ok
  (kernel : Timeloop -> list float -> list float -> float
            -> option (list float * list float))
  (modulus : Z) (n : nat) (f : Fields) (tl : Timeloop) :
  (forall a t, length a = n -> length t = n ->
     exists r, kernel tl a t (dt tl) = Some r
       /\ length r.1 = n /\ length r.2 = n) ->
  fields_ok n f -> 0 <= substep tl < modulus -> modulus <= INT_MAX ->
  exists f',
    exec_order kernel modulus f tl
    = Ret tt (f', set_substep tl ((substep tl + 1) mod modulus))
    /\ fields_ok n f'.
Proof.
  intros Hk Hf Hs Hm. unfold exec_order.
  destruct (exec_fields_ok (fun a t => kernel tl a t (dt tl)) n
              (map_to_list (at_ f)).*1 f Hk Hf) as (f' & -> & Hf').
  { intros name Hin. apply list_elem_of_fmap in Hin as ([name' t] & -> & Hin).
    apply elem_of_map_to_list in Hin. now exists t. }
  exists f'. split; [| assumption].
  rewrite in_int_small by (unfold INT_MIN; lia).
  now rewrite Z.rem_mod_nonneg by lia.
Qed.

Lemma rk_lengths (g : Grid) (cA cB : list cexpr) (modulus substep : Z)
  (n : nat) (dt : float) :
  grid_ok g (Z.of_nat n) -> 0 <= substep < modulus -> modulus <= INT_MAX ->
  Z.of_nat (length cB) = modulus -> Z.of_nat (length cA) = modulus ->
  forall a t, length a = n -> length t = n ->
    exists r, rk g cA cB modulus substep a t dt = Some r
      /\ length r.1 = n /\ length r.2 = n.
Proof.
  intros Hg Hs Hm HcB HcA a t Ha Ht.
  destruct (index_table cB substep) as [cb Hcb]; [lia |].
  destruct (index_table cA ((substep + 1) mod modulus)) as [ca Hca].
  { pose proof (Z.mod_pos_bound (substep + 1) modulus). lia. }
  destruct (rk_stage g cA cB modulus substep a t dt cb ca)
    as (a' & t' & Hrun & Hla & Hlt & _).
  - now rewrite Ha.
  - congruence.
  - apply in_int_small. unfold INT_MIN. lia.
  - assumption.
  - now rewrite Z.rem_mod_nonneg by lia.
  - exists (a', t'). simpl. repeat split; congruence.
Qed.

(** One call of [exec] for either order: every field is integrated and the
    substep counter moves on modulo the number of stages, 3 for [rkorder] 3
    and 5 for [rkorder] 4. *)
Lemma exec_step (g : Grid) (n : nat) (f : Fields) (tl : Timeloop)
  (modulus : Z) :
  grid_ok g (Z.of_nat n) -> fields_ok n f ->
  (rkorder tl = 3 /\ modulus = 3) \/ (rkorder tl = 4 /\ modulus = 5) ->
  0 <= substep tl < modulus ->
  exists f',
    exec g (f, tl)
    = Ret tt (f', set_substep tl ((substep tl + 1) mod modulus))
    /\ fields_ok n f'.
Proof.
  intros Hg Hf [[Hr ->] | [Hr ->]] Hs; unfold exec; simpl; rewrite Hr; simpl.
  - destruct (exec_order_ok (rk3 g) 3 n f tl) as (f' & -> & Hf');
      try assumption.
    { apply rk_lengths; try assumption; unfold INT_MAX; try lia;
        reflexivity. }
    { unfold INT_MAX; lia. }
    simpl. rewrite Hr. simpl. now exists f'.
  - rewrite Hr. simpl.
    destruct (exec_order_ok (rk4 g) 5 n f tl) as (f' & -> & Hf');
      try assumption.
    { apply rk_lengths; try assumption; unfold INT_MAX; try lia;
        reflexivity. }
    { unfold INT_MAX; lia. }
    now exists f'.
Qed.

Lemma exec_n_substep (g : Grid) (n : nat) (modulus : Z) (m : nat)
  (f : Fields) (tl : Timeloop) :
  grid_ok g (Z.of_nat n) -> fields_ok n f ->
  (rkorder tl = 3 /\ modulus = 3) \/ (rkorder tl = 4 /\ modulus = 5) ->
  0 <= substep tl < modulus ->
  exists f' tl',
    exec_n g m (f, tl) = Ret tt (f', tl')
    /\ substep tl' = (substep tl + Z.of_nat m) mod modulus
    /\ fields_ok n f'.
Proof.
  intros Hg. revert f tl. induction m as [| m IH]; intros f tl Hf Hr Hs.
  - exists f, tl. simpl. rewrite Z.add_0_r, Z.mod_small by lia. auto.
  - destruct (exec_step g n f tl modulus Hg Hf Hr Hs) as (f1 & Hrun & Hf1).
    assert (0 < modulus) as Hpos by lia.
    destruct (IH f1 (set_substep tl ((substep tl + 1) mod modulus)) Hf1)
      as (f' & tl' & Hrun' & Hsub & Hf').
    { exact Hr. }
    { simpl. now apply Z.mod_pos_bound. }
    exists f', tl'. split; [| split; [| assumption]].
    + simpl. rewrite Hrun. simpl. exact Hrun'.
    + rewrite Hsub. simpl. rewrite Zplus_mod_idemp_l. f_equal. lia.
Qed.

(** C3, as amended: for a legal [rkorder], on a well-formed grid and field
    set and starting from [substep == 0], [m] calls of [exec] return and
    leave [substep == m mod S], where [S] is 3 for [rkorder] 3 and 5 for
    [rkorder] 4 (the fourth-order scheme has five stages): the counter
    cycles 0, 1, ..., S-1, 0, is back at 0 after exactly [S] calls and not
    before. *)
Theorem exec_substep_cycle (g : Grid) (n : nat) (f : Fields)
  (tl : Timeloop) :
  grid_ok g (Z.of_nat n) -> fields_ok n f ->
  legal_rkorder (rkorder tl) = true -> substep tl = 0 ->
  (forall m, exists f' tl',
      exec_n g m (f, tl) = Ret tt (f', tl')
      /\ substep tl' = Z.of_nat m mod stages (rkorder tl))
  /\ (exists f' tl',
        exec_n g (Z.to_nat (stages (rkorder tl))) (f, tl) = Ret tt (f', tl')
        /\ substep tl' = 0)
  /\ (forall m, (0 < m < Z.to_nat (stages (rkorder tl)))%nat ->
      exists f' tl',
        exec_n g m (f, tl) = Ret tt (f', tl') /\ substep tl' <> 0)
  /\ stages 3 = 3 /\ stages 4 = 5.
Proof.
  intros Hg Hf Hlegal H0.
  assert ((rkorder tl = 3 /\ stages (rkorder tl) = 3)
          \/ (rkorder tl = 4 /\ stages (rkorder tl) = 5)) as Hr.
  { unfold legal_rkorder in Hlegal. apply orb_true_iff in Hlegal.
    destruct Hlegal as [H3 | H4]; [left | right].
    - apply Z.eqb_eq in H3. now rewrite H3.
    - apply Z.eqb_eq in H4. now rewrite H4. }
  assert (0 < stages (rkorder tl) /\ 0 <= substep tl < stages (rkorder tl))
    as [Hpos Hs] by (destruct Hr as [[_ ->] | [_ ->]]; lia).
  assert (forall m, exists f' tl',
             exec_n g m (f, tl) = Ret tt (f', tl')
             /\ substep tl' = Z.of_nat m mod stages (rkorder tl)) as Hall.
  { intros m.
    destruct (exec_n_substep g n _ m f tl Hg Hf Hr Hs)
      as (f' & tl' & Hrun & Hsub & _).
    exists f', tl'. split; [assumption |]. now rewrite Hsub, H0. }
  split; [exact Hall | split; [| split; [| split; reflexivity]]].
  - destruct (Hall (Z.to_nat (stages (rkorder tl))))
      as (f' & tl' & Hrun & Hsub).
    exists f', tl'. split; [assumption |].
    rewrite Hsub, Z2Nat.id, Z.mod_same by lia. reflexivity.
  - intros m Hm. destruct (Hall m) as (f' & tl' & Hrun & Hsub).
    exists f', tl'. split; [assumption |].
    rewrite Hsub, Z.mod_small by lia. lia.
Qed.

Lemma sample_fields_ok : fields_ok 36 Sample.fields.
Proof.
  intros name t Ht. simpl in Ht.
  apply lookup_singleton_Some in Ht as [<- <-].
  split; [reflexivity |]. eexists. split; [apply lookup_singleton_eq |].
  reflexivity.
Qed.

Lemma exec_substep_cycle_witness :
  exists f' tl',
    exec_n Sample.grid (Z.to_nat (stages (rkorder Sample.start4)))
      (Sample.fields, Sample.start4)
    = Ret tt (f', tl')
    /\ substep tl' = 0.
Proof.
  apply (exec_substep_cycle Sample.grid 36 Sample.fields Sample.start4).
  - unfold grid_ok, INT_MAX. simpl. lia.
  - exact sample_fields_ok.
  - reflexivity.
  - reflexivity.
Defined.

(** C3 as stated fails for [rkorder] 4: four calls of [exec] from
    [substep == 0] leave [substep == 4], not 0. *)
Lemma exec_rk4_counterexample :
  rkorder Sample.start4 = 4 /\ substep Sample.start4 = 0
  /\ exists f' tl',
      exec_n Sample.grid 4 (Sample.fields, Sample.start4) = Ret tt (f', tl')
      /\ substep tl' = 4.
Proof.
  split; [reflexivity | split; [reflexivity |]].
  eexists _, _. split; [vm_compute; reflexivity | reflexivity].
Qed.

(** * Further properties of the controller *)

(** ** The step limit and the save points *)

Lemma next_multiple_spec (t p : Z) :
  0 < p -> next_multiple t p = t + (p - t mod p).
Proof.
  intros Hp. unfold next_multiple.
  pose proof (Z.div_mod t p ltac:(lia)). nia.
Qed.

Lemma next_multiple_mod (t p : Z) : 0 < p -> next_multiple t p mod p = 0.
Proof. intros Hp. unfold next_multiple. apply Z.mod_mul. lia. Qed.

Lemma ulong_small (z : Z) : is_ulong z -> ulong z = z.
Proof. intros Hz. apply Z.mod_small. exact Hz. Qed.

Lemma distance_ulong (t p : Z) :
  0 < p -> is_ulong p -> ulong (p - t mod p) = p - t mod p /\ 0 < p - t mod p <= p.
Proof.
  intros Hp Hu. pose proof (Z.mod_pos_bound t p Hp).
  split; [| lia]. apply ulong_small. unfold is_ulong in *. lia.
Qed.

(** X1: with a non-zero [isavetime] (and a non-zero [iiotimeprec] when the
    wall-clock limit is reached), [set_time_step_limit()] returns, changes
    nothing but [idtlim], and leaves a limit that is at most [idtmax], that
    does not reach past the next multiple of [isavetime] (nor, at the
    wall-clock limit, past the next multiple of [iiotimeprec]), and that is
    not zero unless [idtmax] is. *)
Theorem set_time_step_limit_bound (master : Master) (tl : Timeloop) :
  state_in_range tl -> isavetime tl <> 0 ->
  (at_wall_clock_limit master = true -> iiotimeprec tl <> 0) ->
  exists tl',
    set_time_step_limit master tl = Ret tt tl'
    /\ tl' = set_idtlim tl (idtlim tl')
    /\ 0 <= idtlim tl' <= idtmax tl
    /\ itime tl + idtlim tl' <= next_multiple (itime tl) (isavetime tl)
    /\ (at_wall_clock_limit master = true ->
        itime tl + idtlim tl' <= next_multiple (itime tl) (iiotimeprec tl))
    /\ (0 < idtmax tl -> 0 < idtlim tl').
Proof.
  intros Hr Hs Hp.
  destruct Hr as (_ & _ & _ & _ & _ & Hit & _ & _ & _ & Hmax & _ & Hsv
                  & _ & Hio).
  assert (0 < isavetime tl) as Hs' by (unfold is_ulong in Hsv; lia).
  destruct (distance_ulong (itime tl) (isavetime tl) Hs' Hsv) as [Es Bs].
  rewrite !next_multiple_spec by assumption.
  unfold set_time_step_limit.
  destruct (at_wall_clock_limit master) eqn:Hw.
  - assert (0 < iiotimeprec tl) as Hp'
        by (specialize (Hp eq_refl); unfold is_ulong in Hio; lia).
    destruct (distance_ulong (itime tl) (iiotimeprec tl) Hp' Hio) as [Ep Bp].
    rewrite next_multiple_spec by assumption.
    cbn [iiotimeprec isavetime itime idtlim set_idtlim bind].
    destruct (Z.eqb_spec (iiotimeprec tl) 0); [lia |].
    cbn [iiotimeprec isavetime itime idtlim set_idtlim bind].
    destruct (Z.eqb_spec (isavetime tl) 0); [lia |].
    eexists. split; [reflexivity |].
    cbn [idtlim set_idtlim]. rewrite Es, Ep.
    unfold is_ulong in Hmax. repeat split; try lia.
  - cbn [iiotimeprec isavetime itime idtlim set_idtlim bind].
    destruct (Z.eqb_spec (isavetime tl) 0); [lia |].
    eexists. split; [reflexivity |].
    cbn [idtlim set_idtlim]. rewrite Es.
    unfold is_ulong in Hmax. repeat split; try lia.
Qed.

Local Ltac sample_in_range :=
  unfold state_in_range, is_int, is_ulong, INT_MIN, INT_MAX, ULONG_MOD;
  simpl; lia.

Lemma set_time_step_limit_bound_witness :
  exists tl',
    set_time_step_limit (Sample.coordinator true) Sample.start = Ret tt tl'
    /\ tl' = set_idtlim Sample.start (idtlim tl')
    /\ 0 <= idtlim tl' <= idtmax Sample.start
    /\ itime Sample.start + idtlim tl'
       <= next_multiple (itime Sample.start) (isavetime Sample.start)
    /\ (at_wall_clock_limit (Sample.coordinator true) = true ->
        itime Sample.start + idtlim tl'
        <= next_multiple (itime Sample.start) (iiotimeprec Sample.start))
    /\ (0 < idtmax Sample.start -> 0 < idtlim tl').
Proof.
  apply (set_time_step_limit_bound (Sample.coordinator true) Sample.start).
  - sample_in_range.
  - discriminate.
  - discriminate.
Defined.

Lemma set_time_step_limits_idtlim (limits : list Z) (tl : Timeloop) :
  set_time_step_limits limits tl
  = set_idtlim tl (idtlim (set_time_step_limits limits tl))
  /\ idtlim (set_time_step_limits limits tl) <= idtlim tl
  /\ (forall l, l ∈ limits -> idtlim (set_time_step_limits limits tl) <= l)
  /\ (idtlim (set_time_step_limits limits tl) = idtlim tl
      \/ idtlim (set_time_step_limits limits tl) ∈ limits).
Proof.
  unfold set_time_step_limits. revert tl.
  induction limits as [| l limits IH]; intros tl.
  - simpl. split; [now destruct tl |]. split; [lia |]. split; [| now left].
    intros l Hl. now apply elem_of_nil in Hl.
  - simpl. destruct (IH (set_time_step_limit_in l tl)) as (E & Hle & Hall & Hin).
    unfold set_time_step_limit_in in *. cbn [idtlim set_idtlim] in *.
    repeat split.
    + rewrite E at 1. reflexivity.
    + lia.
    + intros l' Hl'. apply elem_of_cons in Hl' as [-> | Hl'];
        [lia | now apply Hall].
    + destruct Hin as [Hin | Hin].
      * rewrite Hin.
        destruct (Z.min_spec (idtlim tl) l) as [[_ ->] | [_ ->]];
          [now left | right; apply list_elem_of_here].
      * right. now apply list_elem_of_further.
Qed.

(** X2: the limits that collaborators pass on through
    [set_time_step_limit(unsigned long)] only lower [idtlim] and change
    nothing else; what is left is the smallest of the limit held before and
    the limits passed, in whatever order they were passed. *)
Theorem set_time_step_limits_smallest (limits limits' : list Z)
  (tl : Timeloop) :
  limits ≡ₚ limits' ->
  set_time_step_limits limits tl
  = set_idtlim tl (idtlim (set_time_step_limits limits tl))
  /\ idtlim (set_time_step_limits limits tl) <= idtlim tl
  /\ (forall l, l ∈ limits -> idtlim (set_time_step_limits limits tl) <= l)
  /\ (idtlim (set_time_step_limits limits tl) = idtlim tl
      \/ idtlim (set_time_step_limits limits tl) ∈ limits)
  /\ set_time_step_limits limits' tl = set_time_step_limits limits tl.
Proof.
  intros Hperm.
  destruct (set_time_step_limits_idtlim limits tl) as (E & Hle & Hall & Hin).
  destruct (set_time_step_limits_idtlim limits' tl)
    as (E' & Hle' & Hall' & Hin').
  repeat split; try assumption.
  rewrite E', E at 1. f_equal.
  assert (idtlim (set_time_step_limits limits' tl)
          <= idtlim (set_time_step_limits limits tl)).
  { destruct Hin as [-> | Hin]; [assumption |].
    apply Hall'. now rewrite <- Hperm. }
  assert (idtlim (set_time_step_limits limits tl)
          <= idtlim (set_time_step_limits limits' tl)).
  { destruct Hin' as [-> | Hin']; [assumption |].
    apply Hall. now rewrite Hperm. }
  cbn [idtlim set_idtlim]. lia.
Qed.

Lemma set_time_step_limits_smallest_witness :
  set_time_step_limits [7000000000; 2500000000; 4000000000] Sample.start
  = set_idtlim Sample.start
      (idtlim (set_time_step_limits [7000000000; 2500000000; 4000000000]
                 Sample.start))
  /\ set_time_step_limits [2500000000; 4000000000; 7000000000] Sample.start
     = set_time_step_limits [7000000000; 2500000000; 4000000000]
         Sample.start.
Proof.
  pose proof (set_time_step_limits_smallest
                [7000000000; 2500000000; 4000000000]
                [2500000000; 4000000000; 7000000000] Sample.start) as H.
  split; apply H; apply (Permutation_cons_append [_; _] _).
Defined.

(** ** One full step of the run loop *)

Lemma set_time_step_limit_eq (master : Master) (tl : Timeloop) :
  state_in_range tl -> isavetime tl <> 0 -> iiotimeprec tl <> 0 ->
  set_time_step_limit master tl
  = Ret tt (set_idtlim tl (default_limit master tl))
  /\ 0 <= default_limit master tl
  /\ itime tl + default_limit master tl
     <= next_multiple (itime tl) (isavetime tl).
Proof.
  intros Hr Hs Hp.
  destruct Hr as (_ & _ & _ & _ & _ & Hit & _ & _ & _ & Hmax & _ & Hsv
                  & _ & Hio).
  assert (0 < isavetime tl) as Hs' by (unfold is_ulong in Hsv; lia).
  assert (0 < iiotimeprec tl) as Hp' by (unfold is_ulong in Hio; lia).
  destruct (distance_ulong (itime tl) (isavetime tl) Hs' Hsv) as [Es Bs].
  destruct (distance_ulong (itime tl) (iiotimeprec tl) Hp' Hio) as [Ep Bp].
  rewrite next_multiple_spec by assumption.
  unfold set_time_step_limit, default_limit. unfold is_ulong in Hmax.
  destruct (at_wall_clock_limit master);
    cbn [iiotimeprec isavetime itime idtlim set_idtlim bind].
  - destruct (Z.eqb_spec (iiotimeprec tl) 0); [lia |].
    cbn [iiotimeprec isavetime itime idtlim set_idtlim bind].
    destruct (Z.eqb_spec (isavetime tl) 0); [lia |].
    cbn [idtlim set_idtlim]. rewrite Es, Ep. repeat split; lia.
  - destruct (Z.eqb_spec (isavetime tl) 0); [lia |].
    cbn [idtlim set_idtlim]. rewrite Es. repeat split; lia.
Qed.

(** The three calls with which the run loop takes one step, outside a
    substep and in adaptive mode. *)
Lemma full_step (master : Master) (tl : Timeloop) :
  state_in_range tl -> in_substep tl = false -> adaptivestep tl = true ->
  idt tl <> 0 -> isavetime tl <> 0 -> iiotimeprec tl <> 0 ->
  0 <= iteration tl < INT_MAX ->
  next_multiple (itime tl) (isavetime tl) < ULONG_MOD ->
  exists tl1 tl2 tl3,
    set_time_step_limit master tl = Ret tt tl1
    /\ set_time_step tl1 = Ret tt tl2
    /\ step_time tl2 = Ret tt tl3
    /\ idt tl3 = default_limit master tl
    /\ itime tl3 = itime tl + default_limit master tl
    /\ iteration tl3 = iteration tl + 1
    /\ in_substep tl3 = false
    /\ isavetime tl3 = isavetime tl
    /\ iiotimeprec tl3 = iiotimeprec tl.
Proof.
  intros Hr Hsub Had Hidt Hs Hp Hn Hnext.
  destruct (set_time_step_limit_eq master tl Hr Hs Hp) as (E1 & Hl0 & Hl1).
  assert (is_ulong (itime tl)) as Hit by apply Hr.
  set (L := default_limit master tl) in *.
  assert (ulong (itime tl + L) = itime tl + L) as EL.
  { apply ulong_small. unfold is_ulong in *. lia. }
  exists (set_idtlim tl L).
  exists (set_dt (set_idt (set_idtlim tl L) L)
            (to_double L / ifactor tl)%float).
  assert (exists tl3,
             step_time (set_dt (set_idt (set_idtlim tl L) L)
                          (to_double L / ifactor tl)%float) = Ret tt tl3
             /\ idt tl3 = L /\ itime tl3 = itime tl + L
             /\ iteration tl3 = iteration tl + 1
             /\ in_substep tl3 = false
             /\ isavetime tl3 = isavetime tl
             /\ iiotimeprec tl3 = iiotimeprec tl) as (tl3 & E3 & H3).
  { unfold step_time, in_substep in *.
    cbn [substep iiotimeprec iteration itime idt iendtime set_idtlim set_idt
         set_dt set_time set_itime set_iotime set_iteration].
    rewrite Hsub. destruct (Z.eqb_spec (iiotimeprec tl) 0); [contradiction |].
    rewrite in_int_small by (unfold INT_MIN; lia).
    destruct (iendtime tl <=? ulong (itime tl + L));
      eexists; (split; [reflexivity |]); cbn; rewrite ?EL;
      repeat split; assumption. }
  exists tl3. split; [exact E1 |]. split; [| split; assumption].
  unfold set_time_step, in_substep in *.
  cbn [substep adaptivestep idt idtlim set_idtlim].
  rewrite Hsub, Had. destruct (Z.eqb_spec (idt tl) 0); [contradiction |].
  reflexivity.
Qed.


(** X3: outside a substep and in adaptive mode, the three calls of one
    step of the run loop ([set_time_step_limit], [set_time_step],
    [step_time]) all return, and move [itime] forward to the next multiple
    of [isavetime] at most: no save point is stepped over. When the step
    does land on that multiple, [do_save] returns true there; without a
    wall-clock limit it lands there as soon as [idtmax] reaches that far. *)
Theorem step_stops_at_save_point (master : Master) (tl : Timeloop) :
  state_in_range tl -> in_substep tl = false -> adaptivestep tl = true ->
  idt tl <> 0 -> isavetime tl <> 0 -> iiotimeprec tl <> 0 ->
  0 <= iteration tl < INT_MAX ->
  next_multiple (itime tl) (isavetime tl) < ULONG_MOD ->
  exists tl1 tl2 tl3,
    set_time_step_limit master tl = Ret tt tl1
    /\ set_time_step tl1 = Ret tt tl2
    /\ step_time tl2 = Ret tt tl3
    /\ itime tl <= itime tl3 <= next_multiple (itime tl) (isavetime tl)
    /\ (itime tl3 = next_multiple (itime tl) (isavetime tl) ->
        exists tl4, do_save master tl3 = Ret true tl4)
    /\ (at_wall_clock_limit master = false ->
        next_multiple (itime tl) (isavetime tl) - itime tl <= idtmax tl ->
        itime tl3 = next_multiple (itime tl) (isavetime tl)).
Proof.
  intros Hr Hsub Had Hidt Hs Hp Hn Hnext.
  destruct (full_step master tl Hr Hsub Had Hidt Hs Hp Hn Hnext)
    as (tl1 & tl2 & tl3 & E1 & E2 & E3 & _ & Hit & Hiter & Hsub3 & Hs3 & Hp3).
  destruct (set_time_step_limit_eq master tl Hr Hs Hp) as (_ & Hl0 & Hl1).
  assert (0 < isavetime tl /\ 0 < iiotimeprec tl) as [Hs' Hp'].
  { destruct Hr as (_ & _ & _ & _ & _ & _ & _ & _ & _ & _ & _ & Hsv & _ & Hio).
    unfold is_ulong in *. lia. }
  exists tl1, tl2, tl3. repeat split; try assumption; try lia.
  - intros Hland. rewrite do_save_eq by lia.
    rewrite Hsub3, Hs3, Hland, next_multiple_mod by assumption.
    destruct (Z.eqb_spec (iteration tl3) 0); [lia |]. simpl.
    destruct (_ && _); eexists; reflexivity.
  - intros Hw Hmax. rewrite Hit. unfold default_limit. rewrite Hw.
    rewrite next_multiple_spec in * by assumption. lia.
Qed.

Lemma step_stops_at_save_point_witness :
  exists tl1 tl2 tl3,
    set_time_step_limit (Sample.coordinator false)
      (set_itime Sample.at_save 1795000000000) = Ret tt tl1
    /\ set_time_step tl1 = Ret tt tl2
    /\ step_time tl2 = Ret tt tl3
    /\ itime (set_itime Sample.at_save 1795000000000) <= itime tl3
       <= next_multiple (itime (set_itime Sample.at_save 1795000000000))
            (isavetime (set_itime Sample.at_save 1795000000000))
    /\ (itime tl3
        = next_multiple (itime (set_itime Sample.at_save 1795000000000))
            (isavetime (set_itime Sample.at_save 1795000000000)) ->
        exists tl4, do_save (Sample.coordinator false) tl3 = Ret true tl4)
    /\ (at_wall_clock_limit (Sample.coordinator false) = false ->
        next_multiple (itime (set_itime Sample.at_save 1795000000000))
          (isavetime (set_itime Sample.at_save 1795000000000))
        - itime (set_itime Sample.at_save 1795000000000)
        <= idtmax (set_itime Sample.at_save 1795000000000) ->
        itime tl3
        = next_multiple (itime (set_itime Sample.at_save 1795000000000))
            (isavetime (set_itime Sample.at_save 1795000000000))).
Proof.
  apply (step_stops_at_save_point (Sample.coordinator false)
           (set_itime Sample.at_save 1795000000000)).
  - sample_in_range.
  - reflexivity.
  - reflexivity.
  - discriminate.
  - discriminate.
  - discriminate.
  - unfold INT_MAX. simpl. lia.
  - reflexivity.
Defined.



(** ** What every method keeps *)

Local Ltac split_cases :=
  repeat match goal with
    | |- context [if ?b then _ else _] => destruct b eqn:?
    | |- context [match ?x with Some _ => _ | None => _ end] =>
        destruct x eqn:?
    end.




Lemma ulong_in_range (z : Z) : is_ulong (ulong z).
Proof. unfold is_ulong, ulong. apply Z.mod_pos_bound. reflexivity. Qed.

Lemma to_int_in_range (z : Z) : is_int (to_int z).
Proof.
  unfold is_int, to_int, INT_MIN, INT_MAX.
  pose proof (Z.mod_pos_bound (z + 2 ^ 31) (2 ^ 32) eq_refl). lia.
Qed.

Lemma in_int_is_int (z : Z) : in_int z = true -> is_int z.
Proof.
  unfold in_int, is_int. intros H. apply andb_true_iff in H as [H1 H2].
  apply Z.leb_le in H1, H2. lia.
Qed.

Lemma rem_in_range (z m : Z) : is_int m -> m <> 0 -> is_int (Z.rem z m).
Proof.
  unfold is_int, INT_MIN, INT_MAX. intros Hm Hm0.
  pose proof (Z.rem_bound_abs z m Hm0). lia.
Qed.

Lemma min_in_range (a b : Z) : is_ulong a -> is_ulong b -> is_ulong (Z.min a b).
Proof. unfold is_ulong. lia. Qed.

Local Ltac in_range_fields :=
  unfold state_in_range in *; simpl in *;
  repeat match goal with
    | H : _ /\ _ |- _ => destruct H
    end;
  repeat match goal with
    | |- _ /\ _ => split
    end;
  try assumption;
  try apply ulong_in_range; try apply to_int_in_range;
  try (apply in_int_is_int; assumption);
  try (repeat apply min_in_range; try assumption; apply ulong_in_range);
  try (unfold is_int, is_ulong in *; lia).

(** X6: the methods that work on the clocks keep every integer member
    within the range of its type, however they end: the wrap-around of the
    [unsigned long] sums, the conversion to [int] of [iotime] and the
    modulus on [substep] leave values of the member's type. *)
Theorem state_stays_in_range (master : Master) (idtlimin : Z) (g : Grid)
  (f : Fields) (tl : Timeloop) :
  state_in_range tl -> is_ulong idtlimin ->
  ends_with state_in_range (step_time tl)
  /\ ends_with state_in_range (step_post_proc_time tl)
  /\ ends_with state_in_range (do_save master tl)
  /\ ends_with state_in_range (do_check tl)
  /\ ends_with state_in_range (set_time_step tl)
  /\ ends_with state_in_range (set_time_step_limit master tl)
  /\ state_in_range (set_time_step_limit_in idtlimin tl)
  /\ ends_with (fun s => state_in_range s.2) (exec g (f, tl)).
Proof.
  intros Hr Hl. repeat match goal with |- _ /\ _ => split end.
  - unfold step_time. split_cases; simpl; try exact I; try assumption;
      in_range_fields.
  - unfold step_post_proc_time. split_cases; simpl; try exact I;
      in_range_fields.
  - unfold do_save. split_cases; simpl; try exact I; try assumption;
      in_range_fields.
  - unfold do_check. split_cases; simpl; try exact I; assumption.
  - unfold set_time_step. split_cases; simpl; try assumption;
      in_range_fields.
  - unfold set_time_step_limit. split_cases; simpl; split_cases; simpl;
      try exact I; in_range_fields.
  - unfold set_time_step_limit_in. in_range_fields.
  - unfold exec, exec_order. simpl. split_cases; simpl; split_cases; simpl;
      try exact I; try assumption; in_range_fields;
      apply rem_in_range; unfold is_int, INT_MIN, INT_MAX; lia.
Qed.

Lemma state_stays_in_range_witness :
  ends_with state_in_range (step_time Sample.start)
  /\ ends_with (fun s => state_in_range s.2)
       (exec Sample.grid (Sample.fields, Sample.start)).
Proof.
  assert (state_in_range Sample.start) as Hr by sample_in_range.
  assert (is_ulong 0) as H0 by (unfold is_ulong, ULONG_MOD; lia).
  pose proof (state_stays_in_range (Sample.coordinator false) 0 Sample.grid
                Sample.fields Sample.start Hr H0) as H.
  split; apply H.
Defined.

(** ** Stepping to the end of the run *)

Lemma step_time_run (tl : Timeloop) :
  in_substep tl = false -> iiotimeprec tl <> 0 ->
  is_int (iteration tl + 1) ->
  exists tl',
    step_time tl = Ret tt tl'
    /\ itime tl' = ulong (itime tl + idt tl)
    /\ iteration tl' = iteration tl + 1
    /\ idt tl' = idt tl /\ iendtime tl' = iendtime tl
    /\ iiotimeprec tl' = iiotimeprec tl /\ in_substep tl' = false
    /\ loop tl' = loop tl && negb (iendtime tl <=? ulong (itime tl + idt tl)).
Proof.
  intros Hsub Hp Hn. unfold step_time. rewrite Hsub.
  cbn [substep iiotimeprec iteration itime idt iendtime
       set_time set_itime set_iotime set_iteration].
  destruct (Z.eqb_spec (iiotimeprec tl) 0); [contradiction |].
  rewrite in_int_small by exact Hn.
  destruct (iendtime tl <=? ulong (itime tl + idt tl));
    eexists; (split; [reflexivity |]); cbn;
    rewrite ?andb_false_r, ?andb_true_r; repeat split; assumption.
Qed.

(** X8: outside a substep and with a fixed step, [n] calls of [step_time]
    in a row all return as long as neither [itime] wraps nor [iteration]
    overflows; they advance [itime] by [n * idt] and [iteration] by [n], and
    the run is still going afterwards exactly when it was going before and
    [itime] has not reached [iendtime]. *)
Theorem step_time_n_advances (n : nat) (tl : Timeloop) :
  in_substep tl = false -> iiotimeprec tl <> 0 ->
  0 <= idt tl -> 0 <= itime tl ->
  itime tl + Z.of_nat n * idt tl < ULONG_MOD ->
  is_int (iteration tl) -> iteration tl + Z.of_nat n <= INT_MAX ->
  exists tl',
    step_time_n n tl = Ret tt tl'
    /\ itime tl' = itime tl + Z.of_nat n * idt tl
    /\ iteration tl' = iteration tl + Z.of_nat n
    /\ (loop tl' = true <->
        loop tl = true
        /\ (n = O \/ itime tl + Z.of_nat n * idt tl < iendtime tl)).
Proof.
  revert tl. induction n as [| n IH]; intros tl Hsub Hp Hidt Hit Hw Hi Hn.
  - exists tl. simpl. rewrite !Z.add_0_r. repeat split; tauto.
  - destruct (step_time_run tl Hsub Hp)
      as (tl1 & E1 & Hit1 & Hi1 & Hidt1 & Hend1 & Hp1 & Hsub1 & Hl1).
    { unfold is_int in *. lia. }
    rewrite ulong_small in Hit1, Hl1 by (unfold is_int, is_ulong in *; nia).
    destruct (IH tl1) as (tl' & E' & Hit' & Hi' & Hl'); try assumption;
      try (rewrite ?Hit1, ?Hi1, ?Hidt1, ?Hp1; unfold is_int in *; nia).
    exists tl'. split; [simpl; rewrite E1; exact E' |].
    rewrite Hit', Hi', Hit1, Hi1, Hidt1. split; [lia |]. split; [lia |].
    rewrite Hl', Hl1, Hend1, Hit1, Hidt1, andb_true_iff, negb_true_iff.
    rewrite Z.leb_gt. split.
    + intros ((Hl & Hlt) & Hor). split; [assumption |]. right.
      destruct Hor as [-> | Hor]; lia.
    + intros (Hl & [Hz | Hlt]); [discriminate |].
      split; [split; [assumption | nia] |].
      destruct n; [now left | right; lia].
Qed.

Lemma step_time_n_advances_witness :
  exists tl',
    step_time_n 360 Sample.start = Ret tt tl'
    /\ itime tl' = itime Sample.start + Z.of_nat 360 * idt Sample.start
    /\ iteration tl' = iteration Sample.start + Z.of_nat 360
    /\ (loop tl' = true <->
        loop Sample.start = true
        /\ (360%nat = O
            \/ itime Sample.start + Z.of_nat 360 * idt Sample.start
               < iendtime Sample.start)).
Proof.
  apply (step_time_n_advances 360 Sample.start);
    try reflexivity; try discriminate;
    unfold is_int, INT_MIN, INT_MAX; simpl; lia.
Defined.

(** ** [do_check] *)

(** X9: for a non-zero [outputiter] (the pair [INT_MIN], [-1] apart),
    [do_check] leaves the state as it is and returns true exactly when the
    controller is outside a substep and [outputiter] divides [iteration];
    a zero [outputiter] makes the call undefined. *)
Theorem do_check_spec (tl : Timeloop) :
  (outputiter tl <> 0 ->
   ~ (iteration tl = INT_MIN /\ outputiter tl = -1) ->
   exists b,
     do_check tl = Ret b tl
     /\ (b = true <->
         in_substep tl = false /\ (outputiter tl | iteration tl)))
  /\ (outputiter tl = 0 -> do_check tl = Undefined).
Proof.
  unfold do_check. split.
  - intros Ho Hm.
    destruct (Z.eqb_spec (outputiter tl) 0); [contradiction |]. simpl.
    destruct ((iteration tl =? INT_MIN) && (outputiter tl =? -1)) eqn:E.
    { apply andb_true_iff in E as [E1 E2].
      apply Z.eqb_eq in E1, E2. exfalso. auto. }
    pose proof (Z.rem_divide (iteration tl) (outputiter tl) Ho) as Hd.
    destruct (Z.eqb_spec (Z.rem (iteration tl) (outputiter tl)) 0) as [Hr | Hr];
      destruct (in_substep tl); simpl; eexists; (split; [reflexivity |]);
      split; try discriminate; try tauto; intros [Hs _]; discriminate.
  - intros ->. reflexivity.
Qed.

Lemma do_check_spec_witness :
  exists b,
    do_check Sample.at_save = Ret b Sample.at_save
    /\ (b = true <->
        in_substep Sample.at_save = false
        /\ (outputiter Sample.at_save | iteration Sample.at_save)).
Proof.
  apply (proj1 (do_check_spec Sample.at_save)).
  - discriminate.
  - intros [H _]. discriminate H.
Defined.

(** ** [get_interpolation_factors] on any reference sequence *)

Lemma scan_times_spec (time : float) (timevec : list float) (i : Z) :
  INT_MIN <= i -> i + Z.of_nat (length timevec) <= INT_MAX ->
  exists k : nat,
    scan_times time timevec i = Some (i + Z.of_nat k)
    /\ (k <= length timevec)%nat
    /\ (forall j t, (j < k)%nat -> timevec !! j = Some t ->
        (time <? t)%float = false)
    /\ (forall t, timevec !! k = Some t -> (time <? t)%float = true).
Proof.
  revert i. induction timevec as [| t rest IH]; intros i Hlo Hhi.
  - exists O. simpl. rewrite Z.add_0_r. repeat split; [lia | | discriminate].
    intros j t Hj. lia.
  - simpl length in Hhi. simpl scan_times.
    destruct (time <? t)%float eqn:Hlt.
    + exists O. rewrite Z.add_0_r. repeat split; [simpl; lia | |].
      * intros j t' Hj. lia.
      * intros t' Ht'. simpl in Ht'. congruence.
    + rewrite in_int_small by lia.
      destruct (IH (i + 1)) as (k & Hk & Hle & Hbefore & Hat); [lia | lia |].
      exists (S k). rewrite Hk. repeat split.
      * f_equal. lia.
      * simpl. lia.
      * intros [| j] t' Hj Ht'; simpl in Ht'; [congruence |].
        apply (Hbefore j); [lia | assumption].
      * intros t' Ht'. simpl in Ht'. now apply Hat.
Qed.

(** The three ways [get_interpolation_factors] returns, by the number [k]
    of leading reference times that are not above the current time. *)
Lemma get_interpolation_factors_cases (tl : Timeloop)
  (timevec : list float) :
  Z.of_nat (length timevec) <= INT_MAX ->
  exists (k : nat) (r : Interpolation),
    get_interpolation_factors tl timevec = Some r
    /\ (k <= length timevec)%nat
    /\ (forall j t, (j < k)%nat -> timevec !! j = Some t ->
        (time tl <? t)%float = false)
    /\ (forall t, timevec !! k = Some t -> (time tl <? t)%float = true)
    /\ ((k = O /\ r = {| index0 := 0; index1 := 0; fac0 := 0; fac1 := 1 |})
        \/ (k <> O /\ k = length timevec
            /\ r = {| index0 := Z.of_nat k - 1; index1 := Z.of_nat k - 1;
                      fac0 := 1; fac1 := 0 |})
        \/ (k <> O /\ (k < length timevec)%nat
            /\ exists t0 t1,
                timevec !! (k - 1)%nat = Some t0
                /\ timevec !! k = Some t1
                /\ r = {| index0 := Z.of_nat k - 1; index1 := Z.of_nat k;
                          fac0 := ((t1 - time tl) / (t1 - t0))%float;
                          fac1 := ((time tl - t0) / (t1 - t0))%float |})).
Proof.
  intros Hlen.
  destruct (scan_times_spec (time tl) timevec 0)
    as (k & Hk & Hle & Hbefore & Hat); [unfold INT_MIN; lia | lia |].
  rewrite Z.add_0_l in Hk. exists k.
  match goal with
  | |- exists r, _ /\ _ /\ _ /\ _ /\ ?C =>
      cut (exists r, get_interpolation_factors tl timevec = Some r /\ C)
  end.
  { intros (r & Hr & Hc). exists r. auto. }
  unfold get_interpolation_factors. rewrite Hk. simpl.
  destruct (Z.eqb_spec (Z.of_nat k) 0) as [Hz | Hz].
  - eexists. split; [reflexivity |].
    left. split; [lia |]. now rewrite Hz.
  - destruct (Z.eqb_spec (Z.of_nat k) (Z.of_nat (length timevec))) as [He | He].
    + eexists. split; [reflexivity |].
      right. left. repeat split; lia.
    + assert (k < length timevec)%nat as Hlt by lia.
      destruct (lookup_lt_is_Some_2 timevec k Hlt) as [t1 Ht1].
      destruct (lookup_lt_is_Some_2 timevec (k - 1)) as [t0 Ht0]; [lia |].
      rewrite !index_nonneg by lia.
      rewrite Nat2Z.id. replace (Z.to_nat (Z.of_nat k - 1)) with (k - 1)%nat
        by lia.
      rewrite Ht1, Ht0. simpl.
      eexists. split; [reflexivity |].
      right. right. split; [lia |]. split; [assumption |].
      exists t0, t1. auto.
Qed.

(** X10: for every reference sequence (of at most [INT_MAX] entries) and
    every time, [get_interpolation_factors] returns, and with indices that
    are usable: [index0 <= index1 <= index0 + 1], both inside the sequence
    when it is not empty. For an empty sequence it returns the indices
    (0,0), which are outside it. *)
Theorem get_interpolation_factors_indices (tl : Timeloop)
  (timevec : list float) :
  Z.of_nat (length timevec) <= INT_MAX ->
  exists r,
    get_interpolation_factors tl timevec = Some r
    /\ 0 <= index0 r <= index1 r /\ index1 r <= index0 r + 1
    /\ (timevec <> [] -> index1 r < Z.of_nat (length timevec))
    /\ (timevec = [] -> index0 r = 0 /\ index1 r = 0).
Proof.
  intros Hlen.
  destruct (get_interpolation_factors_cases tl timevec Hlen)
    as (k & r & Hr & Hle & _ & _ & Hcase).
  exists r. split; [assumption |].
  destruct Hcase as [[Hk ->] | [(Hk & Hlast & ->)
                               | (Hk & Hlt & t0 & t1 & _ & _ & ->)]];
    simpl; (split; [lia |]); (split; [lia |]); split; intros Hv.
  - destruct timevec; [contradiction | simpl; lia].
  - split; reflexivity.
  - lia.
  - subst timevec. simpl in Hlast. contradiction.
  - lia.
  - subst timevec. simpl in Hlt. lia.
Qed.

Lemma get_interpolation_factors_indices_witness :
  exists r,
    get_interpolation_factors Sample.at_save Sample.reference_times = Some r
    /\ 0 <= index0 r <= index1 r /\ index1 r <= index0 r + 1
    /\ (Sample.reference_times <> [] ->
        index1 r < Z.of_nat (length Sample.reference_times))
    /\ (Sample.reference_times = [] -> index0 r = 0 /\ index1 r = 0).
Proof.
  apply (get_interpolation_factors_indices Sample.at_save
           Sample.reference_times).
  unfold INT_MAX. simpl. lia.
Defined.

(** X11: when [get_interpolation_factors] returns two different indices,
    they bracket the current time: the entry at [index1] is the first one
    above it, the entry at [index0] and all before it are not above it, and
    the weights are the distances to the opposite entry over the width of
    the bracket. *)
Theorem get_interpolation_factors_bracket (tl : Timeloop)
  (timevec : list float) (r : Interpolation) :
  Z.of_nat (length timevec) <= INT_MAX ->
  get_interpolation_factors tl timevec = Some r ->
  index0 r <> index1 r ->
  exists t0 t1,
    timevec !! Z.to_nat (index0 r) = Some t0
    /\ timevec !! Z.to_nat (index1 r) = Some t1
    /\ index1 r = index0 r + 1
    /\ (time tl <? t1)%float = true
    /\ (forall j t, (j < Z.to_nat (index1 r))%nat -> timevec !! j = Some t ->
        (time tl <? t)%float = false)
    /\ fac0 r = ((t1 - time tl) / (t1 - t0))%float
    /\ fac1 r = ((time tl - t0) / (t1 - t0))%float.
Proof.
  intros Hlen Hr Hne.
  destruct (get_interpolation_factors_cases tl timevec Hlen)
    as (k & r' & Hr' & Hle & Hbefore & Hat & Hcase).
  assert (r' = r) as -> by congruence.
  destruct Hcase as [[_ ->] | [(_ & _ & ->) | (Hk & Hlt & t0 & t1 & Ht0 & Ht1 & ->)]];
    simpl in *; try contradiction.
  exists t0, t1. rewrite Nat2Z.id.
  replace (Z.to_nat (Z.of_nat k - 1)) with (k - 1)%nat by lia.
  repeat split; try assumption; try lia. now apply Hat.
Qed.

Lemma get_interpolation_factors_bracket_witness :
  exists t0 t1,
    Sample.reference_times !! Z.to_nat 1 = Some t0
    /\ Sample.reference_times !! Z.to_nat 2 = Some t1
    /\ 2 = 1 + 1
    /\ (25 <? t1)%float = true
    /\ (forall j t, (j < Z.to_nat 2)%nat ->
        Sample.reference_times !! j = Some t -> (25 <? t)%float = false)
    /\ 0.5%float = ((t1 - 25) / (t1 - t0))%float
    /\ 0.5%float = ((25 - t0) / (t1 - t0))%float.
Proof.
  apply (get_interpolation_factors_bracket (set_time Sample.start 25)
           Sample.reference_times
           {| index0 := 1; index1 := 2; fac0 := 0.5; fac1 := 0.5 |}).
  - unfold INT_MAX. simpl. lia.
  - vm_compute. reflexivity.
  - discriminate.
Defined.

Lemma get_interpolation_factors_after_witness :
  get_interpolation_factors (set_time Sample.start 30) Sample.reference_times
  = Some {| index0 := Z.of_nat (length Sample.reference_times) - 1;
            index1 := Z.of_nat (length Sample.reference_times) - 1;
            fac0 := 1; fac1 := 0 |}.
Proof.
  apply get_interpolation_factors_after.
  - discriminate.
  - unfold INT_MAX. simpl. lia.
  - intros t Ht. unfold Sample.reference_times in Ht.
    repeat (apply elem_of_cons in Ht as [-> | Ht]; [reflexivity |]).
    now apply elem_of_nil in Ht.
Defined.

Lemma ltb_nan (t : float) : (nan <? t)%float = false.
Proof.
  rewrite ltb_spec. change (Prim2SF nan) with S754_nan.
  unfold SFltb, SFcompare. now destruct (Prim2SF t).
Qed.

(** X13: a current time that is not a number compares below no reference
    time: [get_interpolation_factors] then returns the last entry of a
    non-empty sequence with the weights (1,0). *)
Theorem get_interpolation_factors_nan (tl : Timeloop)
  (timevec : list float) :
  time tl = nan -> timevec <> [] ->
  Z.of_nat (length timevec) <= INT_MAX ->
  get_interpolation_factors tl timevec
  = Some {| index0 := Z.of_nat (length timevec) - 1;
            index1 := Z.of_nat (length timevec) - 1;
            fac0 := 1; fac1 := 0 |}.
Proof.
  intros Hnan Hne Hlen. unfold get_interpolation_factors.
  rewrite scan_times_all; try assumption; try (unfold INT_MIN; lia).
  - simpl. destruct timevec as [| t rest]; [contradiction |].
    simpl length. rewrite Z.add_0_l.
    destruct (Z.eqb_spec (Z.of_nat (S (length rest))) 0); [lia |].
    now rewrite Z.eqb_refl.
  - intros t _. rewrite Hnan. apply ltb_nan.
Qed.

Lemma get_interpolation_factors_nan_witness :
  get_interpolation_factors (set_time Sample.start nan)
    Sample.reference_times
  = Some {| index0 := Z.of_nat (length Sample.reference_times) - 1;
            index1 := Z.of_nat (length Sample.reference_times) - 1;
            fac0 := 1; fac1 := 0 |}.
Proof.
  apply get_interpolation_factors_nan.
  - reflexivity.
  - discriminate.
  - unfold INT_MAX. simpl. lia.
Defined.

(** ** Checkpoint files *)

Lemma decode_bound (bs : list byte) :
  0 <= Codec.decode bs < 256 ^ Z.of_nat (length bs).
Proof.
  induction bs as [| b bs IH].
  - simpl. lia.
  - cbn [Codec.decode length]. rewrite Nat2Z.inj_succ, Z.pow_succ_r by lia.
    assert (0 <= Codec.Z_of_byte b < 256).
    { unfold Codec.Z_of_byte. pose proof (Byte.to_N_bounded b). lia. }
    nia.
Qed.

Lemma fread_length (size : nat) (rest bs rest' : list byte) :
  Codec.fread size rest = Some (bs, rest') ->
  bs = take size rest /\ rest' = drop size rest /\ length bs = size.
Proof.
  unfold Codec.fread. destruct (decide (size <= length rest)%nat); [| discriminate].
  intros [= <- <-]. repeat split. rewrite length_take. lia.
Qed.

Lemma fread_enough (size : nat) (rest : list byte) :
  (size <= length rest)%nat ->
  Codec.fread size rest = Some (take size rest, drop size rest).
Proof. intros H. unfold Codec.fread. now rewrite decide_True. Qed.

(** X14: [save] never changes the time state nor any file but the one it
    names; on a rank other than the coordinator, or when that file exists,
    it changes no file at all. When the coordinator finds the file absent
    it creates it with exactly 20 bytes. *)
Theorem save_touches_one_file (master : Master) (sent : Sent)
  (starttime : Z) (tl : Timeloop) (files : Files) :
  ends_with
    (fun s =>
       s.1 = tl
       /\ (forall name, name <> Codec.filename starttime ->
           s.2 !! name = files !! name)
       /\ (mpiid master <> 0 -> s.2 = files)
       /\ (is_Some (files !! Codec.filename starttime) -> s.2 = files))
    (save master sent starttime (tl, files))
  /\ (mpiid master = 0 -> files !! Codec.filename starttime = None ->
      exists content,
        save master sent starttime (tl, files)
        = Ret tt (tl, <[Codec.filename starttime := content]> files)
        /\ length content = 20%nat).
Proof.
  unfold save, broadcast. cbn [fst snd]. split.
  - destruct (Z.eqb_spec (mpiid master) 0) as [Hm | Hm].
    + destruct (files !! Codec.filename starttime) as [c |] eqn:Hf;
        cbn [fst snd Z.eqb ends_with].
      * repeat split; auto.
      * repeat split; try contradiction.
        -- intros name Hne. now rewrite lookup_insert_ne by congruence.
        -- intros [c Hc]. discriminate.
    + cbn [fst snd]. destruct (sent_nerror sent =? 0); cbn [ends_with fst snd];
        repeat split; auto.
  - intros -> ->. cbn [Z.eqb fst snd]. eexists. split; [reflexivity |].
    rewrite !length_app, !length_encode. reflexivity.
Qed.

(** X15: on the coordinator a second [save] under the same name throws and
    leaves the directory as the first one made it: the first checkpoint
    is still the one a [load] reads. *)
Theorem second_save_keeps_first (master : Master) (sent sent' sent'' : Sent)
  (starttime : Z) (tl tl2 restart : Timeloop) (files : Files) :
  mpiid master = 0 ->
  is_ulong (itime tl) -> is_ulong (idt tl) -> is_int (iteration tl) ->
  files !! Codec.filename starttime = None ->
  exists files',
    save master sent starttime (tl, files) = Ret tt (tl, files')
    /\ save master sent' starttime (tl2, files') = Throw (tl2, files')
    /\ exists tl',
        load master sent'' starttime (restart, files') = Ret tt (tl', files')
        /\ itime tl' = itime tl /\ idt tl' = idt tl
        /\ iteration tl' = iteration tl.
Proof.
  intros Hroot Hi Hd Hn Hnew. unfold save, load, broadcast. rewrite Hroot.
  cbn [Z.eqb fst snd bind]. rewrite Hnew. cbn [Z.eqb fst snd bind].
  eexists. split; [reflexivity |].
  rewrite lookup_insert_eq. cbn [Z.eqb fst snd bind].
  split; [reflexivity |].
  rewrite read_record_encode by assumption. cbn [Z.eqb fst snd bind].
  eexists. split; [reflexivity |]. repeat split.
Qed.

Lemma second_save_keeps_first_witness :
  exists files',
    save (Sample.coordinator false) (Build_Sent 0 0 0 0) 1800
      (Sample.at_save, ∅) = Ret tt (Sample.at_save, files')
    /\ save (Sample.coordinator false) (Build_Sent 0 0 0 0) 1800
         (Sample.start, files') = Throw (Sample.start, files')
    /\ exists tl',
        load (Sample.coordinator false) (Build_Sent 0 0 0 0) 1800
          (Sample.start, files') = Ret tt (tl', files')
        /\ itime tl' = itime Sample.at_save /\ idt tl' = idt Sample.at_save
        /\ iteration tl' = iteration Sample.at_save.
Proof.
  apply second_save_keeps_first;
    [reflexivity | vm_compute; split; [discriminate | reflexivity]
    | vm_compute; split; [discriminate | reflexivity]
    | vm_compute; split; discriminate
    | reflexivity].
Defined.

(** X16: on the coordinator [load] accepts any file of at least 20 bytes:
    it returns with the files unchanged, takes [itime], [idt] and
    [iteration] from the first 8, the next 8 and the next 4 bytes (whatever
    follows is ignored), which are values of their types, and derives
    [time] and [dt] from them. *)
Theorem load_reads_first_20_bytes (master : Master) (sent : Sent)
  (starttime : Z) (tl : Timeloop) (files : Files) (content : list byte) :
  mpiid master = 0 ->
  files !! Codec.filename starttime = Some content ->
  (20 <= length content)%nat ->
  exists tl',
    load master sent starttime (tl, files) = Ret tt (tl', files)
    /\ itime tl' = Codec.decode (take 8 content)
    /\ idt tl' = Codec.decode (take 8 (drop 8 content))
    /\ iteration tl' = Codec.decode_int (take 4 (drop 16 content))
    /\ is_ulong (itime tl') /\ is_ulong (idt tl') /\ is_int (iteration tl')
    /\ time tl' = (to_double (itime tl') / ifactor tl)%float
    /\ dt tl' = (to_double (idt tl') / ifactor tl)%float.
Proof.
  intros Hroot Hf Hlen. unfold load, broadcast. rewrite Hroot.
  cbn [Z.eqb fst snd bind]. rewrite Hf. unfold read_record.
  rewrite fread_enough by (unfold Codec.sizeof_ulong; lia).
  cbn [mbind option_bind fst snd].
  rewrite fread_enough
    by (rewrite length_drop; unfold Codec.sizeof_ulong; lia).
  cbn [mbind option_bind fst snd].
  rewrite fread_enough
    by (rewrite !length_drop; unfold Codec.sizeof_ulong, Codec.sizeof_int; lia).
  cbn [mbind option_bind fst snd Z.eqb bind].
  eexists. split; [reflexivity |].
  cbn [itime idt iteration time dt ifactor set_itime set_idt set_iteration
       set_time set_dt].
  rewrite drop_drop. unfold Codec.sizeof_ulong, Codec.sizeof_int.
  change (8 + 8)%nat with 16%nat.
  repeat split.
  - apply decode_bound.
  - pose proof (decode_bound (take 8 content)) as [_ H].
    rewrite length_take, Nat.min_l in H by lia. exact H.
  - apply decode_bound.
  - pose proof (decode_bound (take 8 (drop 8 content))) as [_ H].
    rewrite length_take, Nat.min_l in H by (rewrite length_drop; lia).
    exact H.
  - apply to_int_in_range.
  - apply to_int_in_range.
Qed.

Lemma load_reads_first_20_bytes_witness :
  exists tl',
    load (Sample.coordinator false) (Build_Sent 0 0 0 0) 0
      (Sample.start, {[ Codec.filename 0 := replicate 24 x01 ]})
    = Ret tt (tl', {[ Codec.filename 0 := replicate 24 x01 ]})
    /\ itime tl' = Codec.decode (take 8 (replicate 24 x01))
    /\ idt tl' = Codec.decode (take 8 (drop 8 (replicate 24 x01)))
    /\ iteration tl' = Codec.decode_int (take 4 (drop 16 (replicate 24 x01)))
    /\ is_ulong (itime tl') /\ is_ulong (idt tl') /\ is_int (iteration tl')
    /\ time tl' = (to_double (itime tl') / ifactor Sample.start)%float
    /\ dt tl' = (to_double (idt tl') / ifactor Sample.start)%float.
Proof.
  apply load_reads_first_20_bytes.
  - reflexivity.
  - apply lookup_singleton_eq.
  - simpl. lia.
Defined.

(** ** Checkpoint file names *)

Lemma parse_zeros (k : nat) (s : string) :
  N.of_uint <$> NilEmpty.uint_of_string (Codec.zeros k +:+ s)
  = N.of_uint <$> NilEmpty.uint_of_string s.
Proof.
  induction k as [| k IH]; [reflexivity |].
  simpl. change (("" +:+ Codec.zeros k) +:+ s) with (Codec.zeros k +:+ s).
  rewrite <- IH.
  now destruct (NilEmpty.uint_of_string (Codec.zeros k +:+ s)).
Qed.

Lemma parse_digits (n : N) :
  N.of_uint <$> NilEmpty.uint_of_string (Codec.digits n) = Some n.
Proof.
  unfold Codec.digits, NilZero.string_of_uint.
  destruct (N.to_uint n) eqn:E;
    try (rewrite <- E, NilEmpty.usu; simpl; f_equal;
         apply DecimalN.Unsigned.of_to).
  destruct n as [| p]; [discriminate |].
  exfalso. revert E. apply DecimalPos.Unsigned.to_uint_nonnil.
Qed.

Lemma parse_padded (k : nat) (n : N) :
  N.of_uint <$> NilEmpty.uint_of_string (Codec.zeros k +:+ Codec.digits n)
  = Some n.
Proof. rewrite parse_zeros. apply parse_digits. Qed.

Lemma append_cons (c : Ascii.ascii) (s1 s2 : string) :
  String c s1 +:+ s2 = String c (s1 +:+ s2).
Proof. reflexivity. Qed.

Lemma append_empty (s : string) : "" +:+ s = s.
Proof. reflexivity. Qed.

Lemma parse_minus (s : string) :
  N.of_uint <$> NilEmpty.uint_of_string ("-" +:+ s) = None.
Proof.
  rewrite append_cons, append_empty. simpl.
  now destruct (NilEmpty.uint_of_string s).
Qed.

Lemma format_07d_inj (z1 z2 : Z) :
  Codec.format_07d z1 = Codec.format_07d z2 -> z1 = z2.
Proof.
  unfold Codec.format_07d.
  destruct (Z.ltb_spec z1 0) as [H1 | H1], (Z.ltb_spec z2 0) as [H2 | H2];
    intros E.
  - rewrite !append_cons, !append_empty in E. injection E as E.
    apply (f_equal (fun s => N.of_uint <$> NilEmpty.uint_of_string s)) in E.
    rewrite !parse_padded in E. injection E as E. lia.
  - apply (f_equal (fun s => N.of_uint <$> NilEmpty.uint_of_string s)) in E.
    rewrite parse_padded, parse_minus in E. discriminate E.
  - apply (f_equal (fun s => N.of_uint <$> NilEmpty.uint_of_string s)) in E.
    rewrite parse_padded, parse_minus in E. discriminate E.
  - apply (f_equal (fun s => N.of_uint <$> NilEmpty.uint_of_string s)) in E.
    rewrite !parse_padded in E. injection E as E. lia.
Qed.

(** X17: checkpoints of different start times go to different files: the
    name [time.%07d] determines the integer it was made from, whatever its
    sign and number of digits. *)
Theorem filename_distinct (t1 t2 : Z) :
  t1 <> t2 -> Codec.filename t1 <> Codec.filename t2.
Proof.
  intros Hne E. apply Hne. unfold Codec.filename in E.
  rewrite !append_cons, !append_empty in E.
  injection E as E. now apply format_07d_inj.
Qed.

Lemma filename_distinct_witness :
  Codec.filename 0 <> Codec.filename 1800.
Proof. apply filename_distinct. discriminate. Defined.

(** ** What [exec] leaves alone *)

Lemma same_ghosts_refl (g : Grid) (a : list float) : same_ghosts g a a.
Proof. split; reflexivity || auto. Qed.

Lemma same_ghosts_trans (g : Grid) (a b c : list float) :
  same_ghosts g a b -> same_ghosts g b c -> same_ghosts g a c.
Proof.
  intros [Hl1 Hg1] [Hl2 Hg2]. split; [congruence |].
  intros n Hn. now rewrite Hg2, Hg1.
Qed.

Lemma fields_same_ghosts_refl (g : Grid) (f : Fields) :
  fields_same_ghosts g f f.
Proof.
  intros name. split.
  - destruct (ap f !! name); constructor. apply same_ghosts_refl.
  - destruct (at_ f !! name); constructor. apply same_ghosts_refl.
Qed.

Lemma fields_same_ghosts_trans (g : Grid) (f1 f2 f3 : Fields) :
  fields_same_ghosts g f1 f2 -> fields_same_ghosts g f2 f3 ->
  fields_same_ghosts g f1 f3.
Proof.
  intros H12 H23 name. destruct (H12 name) as [Ha Ht], (H23 name) as [Ha' Ht'].
  split.
  - destruct Ha; inversion Ha'; subst; constructor.
    eapply same_ghosts_trans; eassumption.
  - destruct Ht; inversion Ht'; subst; constructor.
    eapply same_ghosts_trans; eassumption.
Qed.

Lemma exec_fields_same_ghosts (g : Grid)
  (kernel : list float -> list float -> option (list float * list float))
  (n : nat) (names : list string) (f : Fields) :
  (forall a t, length a = n -> length t = n ->
     exists r, kernel a t = Some r
       /\ same_ghosts g a r.1 /\ same_ghosts g t r.2) ->
  fields_ok n f ->
  (forall name, name ∈ names -> is_Some (at_ f !! name)) ->
  exists f',
    exec_fields kernel names f = Some f'
    /\ fields_ok n f' /\ fields_same_ghosts g f f'.
Proof.
  intros Hk. revert f. induction names as [| name names IH]; intros f Hf Hn.
  - exists f. split; [reflexivity |]. split; [assumption |].
    apply fields_same_ghosts_refl.
  - destruct (Hn name) as [t Ht]; [apply list_elem_of_here |].
    destruct (Hf name t Ht) as (Hlt & a & Ha & Hla).
    destruct (Hk a t Hla Hlt) as (r & Hr & [Hr1 Hg1] & [Hr2 Hg2]).
    simpl. unfold exec_field. rewrite Ht, Ha. simpl. rewrite Hr. simpl.
    destruct (IH {| ap := <[name := r.1]> (ap f);
                    at_ := <[name := r.2]> (at_ f) |})
      as (f' & Hrun & Hf' & Hsame).
    + intros name' t'. simpl. intros Hl.
      destruct (decide (name' = name)) as [-> | Hne].
      * rewrite lookup_insert_eq in Hl. injection Hl as <-.
        split; [congruence |]. exists r.1.
        split; [apply lookup_insert_eq | congruence].
      * rewrite lookup_insert_ne in Hl by congruence.
        destruct (Hf name' t' Hl) as (Hlt' & a' & Ha' & Hla').
        split; [assumption |]. exists a'.
        split; [| assumption]. now rewrite lookup_insert_ne by congruence.
    + intros name' Hin. simpl. apply lookup_insert_is_Some'. right.
      apply Hn. now apply list_elem_of_further.
    + exists f'. split; [assumption |]. split; [assumption |].
      eapply fields_same_ghosts_trans; [| exact Hsame].
      intros name'. simpl.
      destruct (decide (name' = name)) as [-> | Hne].
      * rewrite !lookup_insert_eq, Ha, Ht.
        split; constructor; split; assumption.
      * rewrite !lookup_insert_ne by congruence.
        apply fields_same_ghosts_refl.
Qed.

Lemma rk_same_ghosts (g : Grid) (cA cB : list cexpr) (modulus substep : Z)
  (n : nat) (dt : float) :
  grid_ok g (Z.of_nat n) -> 0 <= substep < modulus -> modulus <= INT_MAX ->
  Z.of_nat (length cB) = modulus -> Z.of_nat (length cA) = modulus ->
  forall a t, length a = n -> length t = n ->
    exists r, rk g cA cB modulus substep a t dt = Some r
      /\ same_ghosts g a r.1 /\ same_ghosts g t r.2.
Proof.
  intros Hg Hs Hm HcB HcA a t Ha Ht.
  destruct (index_table cB substep) as [cb Hcb]; [lia |].
  destruct (index_table cA ((substep + 1) mod modulus)) as [ca Hca].
  { pose proof (Z.mod_pos_bound (substep + 1) modulus). lia. }
  destruct (rk_stage g cA cB modulus substep a t dt cb ca)
    as (a' & t' & Hrun & Hla & Hlt & _ & Hghost).
  - now rewrite Ha.
  - congruence.
  - apply in_int_small. unfold INT_MIN. lia.
  - assumption.
  - now rewrite Z.rem_mod_nonneg by lia.
  - exists (a', t'). simpl. split; [assumption |].
    split; (split; [assumption |]); intros m Hm'; now apply Hghost.
Qed.

Lemma exec_step_same_ghosts (g : Grid) (n : nat) (f : Fields)
  (tl : Timeloop) :
  grid_ok g (Z.of_nat n) -> fields_ok n f ->
  legal_rkorder (rkorder tl) = true ->
  0 <= substep tl < stages (rkorder tl) ->
  exists f',
    exec g (f, tl)
    = Ret tt (f', set_substep tl
                    ((substep tl + 1) mod stages (rkorder tl)))
    /\ fields_ok n f' /\ fields_same_ghosts g f f'.
Proof.
  intros Hg Hf Hlegal Hs.
  assert (forall name, name ∈ (map_to_list (at_ f)).*1 ->
                       is_Some (at_ f !! name)) as Hnames.
  { intros name Hin. apply list_elem_of_fmap in Hin as ([name' t] & -> & Hin).
    apply elem_of_map_to_list in Hin. now exists t. }
  unfold legal_rkorder in Hlegal. apply orb_true_iff in Hlegal.
  destruct Hlegal as [H3 | H4]; [apply Z.eqb_eq in H3 | apply Z.eqb_eq in H4].
  - rewrite H3 in *. change (stages 3) with 3 in *.
    destruct (exec_fields_same_ghosts g
                (fun a t => rk3 g tl a t (dt tl)) n
                (map_to_list (at_ f)).*1 f) as (f' & E & Hf' & Hsame);
      try assumption.
    { apply rk_same_ghosts; try assumption; unfold INT_MAX; try lia;
        reflexivity. }
    exists f'. split; [| split; assumption].
    unfold exec, exec_order. cbn [fst snd]. rewrite H3. cbn [Z.eqb Pos.eqb].
    rewrite E, in_int_small by (unfold INT_MIN, INT_MAX; lia).
    cbn [bind fst snd rkorder set_substep]. rewrite H3. cbn [Z.eqb Pos.eqb].
    now rewrite Z.rem_mod_nonneg by lia.
  - rewrite H4 in *. change (stages 4) with 5 in *.
    destruct (exec_fields_same_ghosts g
                (fun a t => rk4 g tl a t (dt tl)) n
                (map_to_list (at_ f)).*1 f) as (f' & E & Hf' & Hsame);
      try assumption.
    { apply rk_same_ghosts; try assumption; unfold INT_MAX; try lia;
        reflexivity. }
    exists f'. split; [| split; assumption].
    unfold exec, exec_order. cbn [fst snd]. rewrite H4. cbn [Z.eqb Pos.eqb bind].
    cbn [fst snd]. rewrite H4. cbn [Z.eqb Pos.eqb].
    rewrite E, in_int_small by (unfold INT_MIN, INT_MAX; lia).
    now rewrite Z.rem_mod_nonneg by lia.
Qed.

(** X18: for a legal [rkorder], on a well-formed grid and field set, any
    number of calls of [exec] return and change nothing in the controller
    but [substep]; the field set keeps its names, every array keeps its
    size, and the cells outside the index ranges (the ghost cells) keep
    their values, in the value arrays and in the tendency arrays. *)
Theorem exec_keeps_ghost_cells (g : Grid) (n m : nat) (f : Fields)
  (tl : Timeloop) :
  grid_ok g (Z.of_nat n) -> fields_ok n f ->
  legal_rkorder (rkorder tl) = true ->
  0 <= substep tl < stages (rkorder tl) ->
  exists f' tl',
    exec_n g m (f, tl) = Ret tt (f', tl')
    /\ tl' = set_substep tl (substep tl')
    /\ fields_same_ghosts g f f'.
Proof.
  intros Hg. revert f tl. induction m as [| m IH]; intros f tl Hf Hl Hs.
  - exists f, tl. split; [reflexivity |].
    split; [now destruct tl | apply fields_same_ghosts_refl].
  - destruct (exec_step_same_ghosts g n f tl Hg Hf Hl Hs)
      as (f1 & E1 & Hf1 & Hsame1).
    assert (0 < stages (rkorder tl)) by lia.
    destruct (IH f1 (set_substep tl
                       ((substep tl + 1) mod stages (rkorder tl))) Hf1)
      as (f' & tl' & E' & Htl' & Hsame').
    { exact Hl. }
    { simpl. now apply Z.mod_pos_bound. }
    exists f', tl'. split; [simpl; rewrite E1; exact E' |].
    split; [rewrite Htl' at 1; reflexivity |].
    eapply fields_same_ghosts_trans; eassumption.
Qed.

Lemma exec_keeps_ghost_cells_witness :
  exists f' tl',
    exec_n Sample.grid 7 (Sample.fields, Sample.start) = Ret tt (f', tl')
    /\ tl' = set_substep Sample.start (substep tl')
    /\ fields_same_ghosts Sample.grid Sample.fields f'.
Proof.
  apply (exec_keeps_ghost_cells Sample.grid 36 7 Sample.fields Sample.start).
  - unfold grid_ok, INT_MAX. simpl. lia.
  - exact sample_fields_ok.
  - reflexivity.
  - simpl. unfold stages, RK3.nsubstep. simpl. lia.
Defined.

(** ** A tendency without its field *)

Lemma exec_fields_missing
  (kernel : list float -> list float -> option (list float * list float))
  (names : list string) (f : Fields) (name : string) :
  name ∈ names -> ap f !! name = None ->
  exec_fields kernel names f = None.
Proof.
  revert f. induction names as [| name' names IH]; intros f Hin Hap.
  - now apply elem_of_nil in Hin.
  - simpl. destruct (exec_field kernel name' f) as [f1 |] eqn:E; [| reflexivity].
    unfold exec_field in E.
    destruct (at_ f !! name') as [t |]; [| discriminate]. simpl in E.
    destruct (ap f !! name') as [a |] eqn:Ha; [| discriminate]. simpl in E.
    destruct (kernel a t) as [r |]; [| discriminate]. simpl in E.
    injection E as <-.
    assert (name' <> name) as Hne by congruence.
    apply elem_of_cons in Hin as [-> | Hin]; [contradiction |].
    apply IH; [assumption |]. simpl. now rewrite lookup_insert_ne.
Qed.

(** X19: for a legal [rkorder], when the tendencies hold a name for which
    there is no prognostic field, [exec] has no defined outcome, whatever
    the other fields are: [fields->ap[name]] is then a null pointer that
    the kernel is handed. *)
Theorem exec_missing_field (g : Grid) (f : Fields) (tl : Timeloop)
  (name : string) :
  legal_rkorder (rkorder tl) = true ->
  is_Some (at_ f !! name) -> ap f !! name = None ->
  exec g (f, tl) = Undefined.
Proof.
  intros Hlegal [t Ht] Hap.
  assert (name ∈ (map_to_list (at_ f)).*1) as Hin.
  { apply list_elem_of_fmap. exists (name, t).
    split; [reflexivity | now apply elem_of_map_to_list]. }
  unfold legal_rkorder in Hlegal. apply orb_true_iff in Hlegal.
  unfold exec, exec_order. cbn [fst snd].
  destruct Hlegal as [H3 | H4].
  - rewrite H3. now rewrite (exec_fields_missing _ _ f name Hin Hap).
  - apply Z.eqb_eq in H4. rewrite H4. cbn [Z.eqb Pos.eqb bind fst snd].
    rewrite H4. cbn [Z.eqb Pos.eqb].
    now rewrite (exec_fields_missing _ _ f name Hin Hap).
Qed.

Lemma exec_missing_field_witness :
  exec Sample.grid
    ({| ap := ∅; at_ := {[ "u" := replicate 36 2%float ]} |}, Sample.start)
  = Undefined.
Proof.
  apply (exec_missing_field _ _ _ "u").
  - reflexivity.
  - exists (replicate 36 2%float). reflexivity.
  - reflexivity.
Defined.

(** ** The duration of a stage *)

(** X20: for a legal [rkorder] and a substep of its scheme,
    [get_sub_time_step] returns, and what it returns is the factor with
    which the stage kernel of that order, run with the controller's [dt],
    adds the tendency to the field at every grid point of the index
    ranges. *)
Theorem get_sub_time_step_is_stage_weight (g : Grid) (tl : Timeloop)
  (a at_ : list float) :
  grid_ok g (Z.of_nat (length a)) -> length at_ = length a ->
  legal_rkorder (rkorder tl) = true ->
  0 <= substep tl < stages (rkorder tl) ->
  exists subdt a' at',
    get_sub_time_step tl = Some subdt
    /\ (if rkorder tl =? 3 then rk3 g tl a at_ (dt tl)
        else rk4 g tl a at_ (dt tl)) = Some (a', at')
    /\ forall i j k, in_range g i j k ->
       exists x t,
         a !! cell g i j k = Some x /\ at_ !! cell g i j k = Some t
         /\ a' !! cell g i j k = Some (x + subdt * t)%float.
Proof.
  intros Hg Hlen Hlegal Hs.
  unfold legal_rkorder in Hlegal. apply orb_true_iff in Hlegal.
  destruct Hlegal as [H3 | H4]; [apply Z.eqb_eq in H3 | apply Z.eqb_eq in H4].
  - rewrite H3 in *. change (stages 3) with 3 in Hs.
    destruct (index_table RK3.cB (substep tl)) as [cb Hcb]; [simpl; lia |].
    destruct (index_table RK3.cA ((substep tl + 1) mod 3)) as [ca Hca].
    { pose proof (Z.mod_pos_bound (substep tl + 1) 3). simpl. lia. }
    destruct (rk_stage g RK3.cA RK3.cB 3 (substep tl) a at_ (dt tl) cb ca)
      as (a' & at' & Hrun & _ & _ & Hupd & _); try assumption.
    { apply in_int_small. unfold INT_MIN, INT_MAX. lia. }
    { rewrite Z.rem_mod_nonneg by lia. assumption. }
    exists (eval_double cb * dt tl)%float, a', at'.
    split; [| split; [exact Hrun |]].
    + unfold get_sub_time_step, rk3subdt. rewrite H3, Hcb. reflexivity.
    + intros i j k Hr. destruct (Hupd i j k Hr) as (x & t & Hx & Ht & Ha' & _).
      exists x, t. auto.
  - rewrite H4 in *. change (stages 4) with 5 in Hs.
    destruct (index_table RK4.cB (substep tl)) as [cb Hcb]; [simpl; lia |].
    destruct (index_table RK4.cA ((substep tl + 1) mod 5)) as [ca Hca].
    { pose proof (Z.mod_pos_bound (substep tl + 1) 5). simpl. lia. }
    destruct (rk_stage g RK4.cA RK4.cB 5 (substep tl) a at_ (dt tl) cb ca)
      as (a' & at' & Hrun & _ & _ & Hupd & _); try assumption.
    { apply in_int_small. unfold INT_MIN, INT_MAX. lia. }
    { rewrite Z.rem_mod_nonneg by lia. assumption. }
    exists (eval_double cb * dt tl)%float, a', at'.
    split; [| split; [exact Hrun |]].
    + unfold get_sub_time_step, rk4subdt. rewrite H4, Hcb. reflexivity.
    + intros i j k Hr. destruct (Hupd i j k Hr) as (x & t & Hx & Ht & Ha' & _).
      exists x, t. auto.
Qed.

Lemma get_sub_time_step_is_stage_weight_witness :
  exists subdt a' at',
    get_sub_time_step Sample.start4 = Some subdt
    /\ (if rkorder Sample.start4 =? 3
        then rk3 Sample.grid Sample.start4
               (replicate 36 1%float) (replicate 36 2%float)
               (dt Sample.start4)
        else rk4 Sample.grid Sample.start4
               (replicate 36 1%float) (replicate 36 2%float)
               (dt Sample.start4)) = Some (a', at')
    /\ forall i j k, in_range Sample.grid i j k ->
       exists x t,
         replicate 36 1%float !! cell Sample.grid i j k = Some x
         /\ replicate 36 2%float !! cell Sample.grid i j k = Some t
         /\ a' !! cell Sample.grid i j k = Some (x + subdt * t)%float.
Proof.
  apply (get_sub_time_step_is_stage_weight Sample.grid Sample.start4
           (replicate 36 1%float) (replicate 36 2%float)).
  - unfold grid_ok, INT_MAX. simpl. lia.
  - reflexivity.
  - reflexivity.
  - simpl. unfold stages, RK4.nsubstep. simpl. lia.
Defined.

(** ** The constructor *)

Lemma to_ulong_range (x : float) (z : Z) : to_ulong x = Some z -> is_ulong z.
Proof.
  unfold to_ulong, is_ulong. destruct (Prim2SF x) as [s | s | | s m e];
    try discriminate.
  - intros [= <-]. unfold ULONG_MOD. lia.
  - cbv zeta.
    destruct (_ && _) eqn:E; [| discriminate]. intros [= <-].
    apply andb_true_iff in E as [E1 E2].
    apply Z.leb_le in E1. apply Z.ltb_lt in E2. lia.
Qed.

(** What a constructor call that returns has gone through. *)
Lemma construct_returns (pow10 : Z -> float) (mode : string) (input : Input)
  (unset : Z) (tl : Timeloop) :
  construct pow10 mode input unset = Ret tl tt ->
  exists iend istart step stepmax isave ipost iio,
    in_n input <= 0
    /\ legal_rkorder (in_rkorder input) = true
    /\ to_ulong (1000000000 * in_endtime input + 0.5)%float = Some iend
    /\ to_ulong
         (1000000000
          * (if String.eqb mode "init" then 0 else in_starttime input)
          + 0.5)%float = Some istart
    /\ to_ulong (1000000000 * in_dt input + 0.5)%float = Some step
    /\ to_ulong (1000000000 * in_dtmax input + 0.5)%float = Some stepmax
    /\ to_ulong (1000000000 * in_savetime input + 0.5)%float = Some isave
    /\ to_ulong (1000000000 * pow10 (in_iotimeprec input) + 0.5)%float
       = Some iio
    /\ iio <> 0 /\ istart mod iio = 0 /\ isave mod iio = 0
    /\ tl = {| substep := 0; ifactor := 1000000000;
               adaptivestep := in_adaptivestep input;
               rkorder := in_rkorder input;
               outputiter := in_outputiter input; loop := true;
               time := 0; dt := in_dt input; iteration := 0;
               iotime := to_int (istart / iio);
               itime := 0; iendtime := iend; istarttime := istart;
               idt := step; idtmax := stepmax; idtlim := step;
               isavetime := isave; ipostproctime := ipost;
               iiotimeprec := iio |}.
Proof.
  unfold construct, legal_rkorder. cbv zeta.
  destruct (Z.ltb_spec 0 (in_n input)) as [Hn | Hn]; [discriminate |].
  destruct ((in_rkorder input =? 3) || (in_rkorder input =? 4)) eqn:Hr;
    [| discriminate]. cbn [negb].
  destruct (to_ulong (1000000000 * in_endtime input + 0.5)%float)
    as [iend |]; cbn [mbind option_bind]; [| discriminate].
  destruct (to_ulong
              (1000000000
               * (if String.eqb mode "init" then 0 else in_starttime input)
               + 0.5)%float)
    as [istart |] eqn:Estart; cbn [mbind option_bind]; [| discriminate].
  destruct (to_ulong (1000000000 * in_dt input + 0.5)%float)
    as [step |]; cbn [mbind option_bind]; [| discriminate].
  destruct (to_ulong (1000000000 * in_dtmax input + 0.5)%float)
    as [stepmax |]; cbn [mbind option_bind]; [| discriminate].
  destruct (to_ulong (1000000000 * in_savetime input + 0.5)%float)
    as [isave |]; cbn [mbind option_bind]; [| discriminate].
  destruct (if String.eqb mode "post" then _ else _) as [ipost |];
    cbn [mbind option_bind]; [| discriminate].
  destruct (to_ulong (1000000000 * pow10 _ + 0.5)%float)
    as [iio |]; cbn [mbind option_bind]; [| discriminate].
  cbn [mbind option_bind iiotimeprec istarttime isavetime].
  destruct (Z.eqb_spec iio 0) as [Hz | Hz]; [discriminate |].
  destruct (Z.eqb_spec (istart mod iio) 0) as [Hs | Hs]; [| discriminate].
  destruct (Z.eqb_spec (isave mod iio) 0) as [Hv | Hv]; [| discriminate].
  cbn [negb orb]. intros [= <-].
  exists iend, istart, step, stepmax, isave, ipost, iio.
  repeat split; assumption.
Qed.

(** X21: a constructor call that returns has seen no failed input item and
    a legal [rkorder], and leaves a controller at the start of a run
    ([substep], [itime] and [iteration] zero, [loop] set, the step limit
    equal to the step) whose integer times are [unsigned long] values, with
    a non-zero [iiotimeprec] that divides both [istarttime] and
    [isavetime]; in mode [init] the start time is zero whatever the input
    says. *)
Theorem construct_establishes (pow10 : Z -> float) (mode : string)
  (input : Input) (unset : Z) (tl : Timeloop) :
  construct pow10 mode input unset = Ret tl tt ->
  in_n input <= 0
  /\ legal_rkorder (rkorder tl) = true
  /\ substep tl = 0 /\ itime tl = 0 /\ iteration tl = 0
  /\ is_finished tl = false /\ idtlim tl = idt tl
  /\ is_ulong (iendtime tl) /\ is_ulong (istarttime tl)
  /\ is_ulong (idt tl) /\ is_ulong (idtmax tl) /\ is_ulong (isavetime tl)
  /\ is_ulong (iiotimeprec tl) /\ iiotimeprec tl <> 0
  /\ (iiotimeprec tl | istarttime tl) /\ (iiotimeprec tl | isavetime tl)
  /\ (mode = "init" -> istarttime tl = 0).
Proof.
  intros H. apply construct_returns in H
    as (iend & istart & step & stepmax & isave & ipost & iio & Hn & Hr
        & Eend & Estart & Estep & Emax & Esave & Eio & Hz & Hs & Hv & ->).
  cbn. repeat match goal with |- _ /\ _ => split end;
    try assumption; try reflexivity;
    try (eapply to_ulong_range; eassumption).
  - apply Z.mod_divide; assumption.
  - apply Z.mod_divide; assumption.
  - intros ->. cbn in Estart. vm_compute in Estart. congruence.
Qed.

Lemma construct_establishes_witness :
  in_n Sample.input <= 0
  /\ legal_rkorder (rkorder Sample.start) = true
  /\ substep Sample.start = 0 /\ itime Sample.start = 0
  /\ iteration Sample.start = 0
  /\ is_finished Sample.start = false
  /\ idtlim Sample.start = idt Sample.start
  /\ is_ulong (iendtime Sample.start) /\ is_ulong (istarttime Sample.start)
  /\ is_ulong (idt Sample.start) /\ is_ulong (idtmax Sample.start)
  /\ is_ulong (isavetime Sample.start)
  /\ is_ulong (iiotimeprec Sample.start) /\ iiotimeprec Sample.start <> 0
  /\ (iiotimeprec Sample.start | istarttime Sample.start)
  /\ (iiotimeprec Sample.start | isavetime Sample.start)
  /\ ("run" = "init" -> istarttime Sample.start = 0).
Proof.
  apply (construct_establishes Sample.pow10 "run" Sample.input 0).
  vm_compute. reflexivity.
Defined.

(** X22: the constructor takes a save interval of zero: the test on the
    multiples of [iiotimeprec] lets it through. The controller it returns
    has [isavetime == 0], and neither [set_time_step_limit()] nor, outside
    the wall-clock branch, [do_save] has a defined outcome on it: both
    divide by [isavetime]. *)
Theorem construct_accepts_zero_savetime (pow10 : Z -> float) (mode : string)
  (input : Input) (unset : Z) (tl : Timeloop) (master : Master) :
  construct pow10 mode input unset = Ret tl tt ->
  in_savetime input = 0%float ->
  isavetime tl = 0
  /\ set_time_step_limit master tl = Undefined
  /\ (at_wall_clock_limit master = false -> do_save master tl = Undefined).
Proof.
  intros H Hsave. apply construct_returns in H
    as (iend & istart & step & stepmax & isave & ipost & iio & Hn & Hr
        & Eend & Estart & Estep & Emax & Esave & Eio & Hz & Hs & Hv & ->).
  rewrite Hsave in Esave. vm_compute in Esave. injection Esave as <-.
  split; [reflexivity |]. split.
  - unfold set_time_step_limit.
    destruct (at_wall_clock_limit master);
      cbn [iiotimeprec isavetime itime idtlim idtmax set_idtlim bind].
    + destruct (Z.eqb_spec iio 0); [contradiction | reflexivity].
    + reflexivity.
  - intros Hw. unfold do_save. cbn [iiotimeprec isavetime itime].
    destruct (Z.eqb_spec iio 0); [contradiction |].
    rewrite Hw, andb_false_r. reflexivity.
Qed.

Lemma construct_accepts_zero_savetime_witness :
  exists tl,
    construct Sample.pow10 "run" Sample.input_no_save 0 = Ret tl tt
    /\ isavetime tl = 0
    /\ set_time_step_limit (Sample.coordinator false) tl = Undefined
    /\ (at_wall_clock_limit (Sample.coordinator false) = false ->
        do_save (Sample.coordinator false) tl = Undefined).
Proof.
  eexists. split; [vm_compute; reflexivity |].
  apply (construct_accepts_zero_savetime Sample.pow10 "run"
           Sample.input_no_save 0).
  - vm_compute. reflexivity.
  - reflexivity.
Defined.

(** ** Index ranges that leave the arrays *)

Lemma foldM_fails {A S : Type} (body : A -> S -> option S) (P : S -> Prop)
  (l : list A) (x : A) (s : S) :
  x ∈ l -> P s ->
  (forall y s s', body y s = Some s' -> P s -> P s') ->
  (forall s, P s -> body x s = None) ->
  foldM body l s = None.
Proof.
  intros Hin Hs Hkeep Hfail. revert s Hs.
  induction l as [| y l IH]; intros s Hs.
  - now apply elem_of_nil in Hin.
  - simpl. apply elem_of_cons in Hin as [<- | Hin].
    + now rewrite Hfail.
    + destruct (body y s) as [s' |] eqn:E; [| reflexivity].
      apply IH; [assumption |]. eapply Hkeep; eassumption.
Qed.

Lemma index_beyond {A : Type} (l : list A) (i : Z) :
  Z.of_nat (length l) <= i -> index l i = None.
Proof.
  intros Hi. unfold index. destruct (i <? 0); [reflexivity |].
  apply lookup_ge_None. lia.
Qed.

(** X7: when some grid point of the index ranges has its cell beyond the
    end of the value array, the stage kernels [rk3] and [rk4] have no
    defined outcome, wherever in the loop that point comes and whatever
    the substep: the kernels check no bounds. *)
Theorem rk_out_of_bounds (g : Grid) (tl : Timeloop) (a at_ : list float)
  (dt : float) (i j k : Z) :
  in_range g i j k ->
  Z.of_nat (length a) <= i + j * icells g + k * ijcells g ->
  rk3 g tl a at_ dt = None /\ rk4 g tl a at_ dt = None.
Proof.
  intros Hr Hout.
  assert (forall cB substep,
             grid_loop g (update_a cB substep dt at_) a = None) as Hloop.
  { intros cB substep. rewrite grid_loop_foldM.
    apply (foldM_fails _ (fun s => length s = length a) _ (i, j, k)).
    - now apply elem_of_triples.
    - reflexivity.
    - intros [[i' j'] k'] s s' Hb Hs. cbn [fst snd] in Hb.
      destruct (ijk_of g i' j' k') as [n |]; [| discriminate].
      cbn [mbind option_bind] in Hb. unfold update_a in Hb.
      destruct (index cB substep); [| discriminate].
      destruct (index at_ n); [| discriminate].
      destruct (index s n); [| discriminate].
      cbn [mbind option_bind] in Hb. injection Hb as <-.
      now rewrite length_insert.
    - intros s Hs. cbn [fst snd]. unfold ijk_of.
      destruct (_ && _); [| reflexivity]. cbn [mbind option_bind].
      unfold update_a.
      destruct (index cB substep); [| reflexivity].
      destruct (index at_ _); [| reflexivity]. cbn [mbind option_bind].
      rewrite index_beyond by (rewrite Hs; exact Hout). reflexivity. }
  unfold rk3, rk4, rk. now rewrite !Hloop.
Qed.

Lemma rk_out_of_bounds_witness :
  rk3 Sample.grid Sample.start (replicate 16 1%float) (replicate 36 2%float)
    10 = None
  /\ rk4 Sample.grid Sample.start (replicate 16 1%float)
       (replicate 36 2%float) 10 = None.
Proof.
  apply (rk_out_of_bounds Sample.grid Sample.start _ _ _ 1 1 1).
  - unfold in_range. simpl. lia.
  - simpl. lia.
Defined.
